(** * generate_devtools_ui_strings.js: a shallow embedding

    The build step [scripts/build/generate_devtools_ui_strings.js] parses its
    command line, asks the localization checker for the strings found in the
    frontend, prints the three diff reports, stops the build when strings are
    missing from the catalog or carry a wrong IDS key, and otherwise writes
    the two generated C++ files.

    The script is embedded as functions over an explicit [World]: one record
    per module the script [require]s.  Effects are collected in a trace of
    [Event]s by a small writer monad whose computations end normally, with a
    thrown exception, or with [process.exit]. *)

From Stdlib Require Import String Ascii List ZArith Bool Lia Permutation.
From Stdlib Require Import DecimalString DecimalNat.
Import ListNotations.

Local Open Scope list_scope.
Local Open Scope string_scope.

(* ================================================================== *)
(** * JavaScript values used by the script *)

(** The line feed and the double quote, which a string literal of this file
    cannot hold directly. *)
Definition LF : string := String (ascii_of_nat 10) EmptyString.
Definition DQUOTE : string := String (ascii_of_nat 34) EmptyString.

(** A value that is either [undefined] or a string: an element read from an
    array ([args[i]]), and what the three report functions return. *)
Inductive Value : Type :=
| VUndefined
| VString (s : string).

(** [ToBoolean]: [undefined] and the empty string are falsy. *)
Definition truthy (v : Value) : bool :=
  match v with
  | VUndefined => false
  | VString s => negb (s =? "")%string
  end.

(** [ToString], as applied by a template literal [`${v}`]. *)
Definition Value_toString (v : Value) : string :=
  match v with
  | VUndefined => "undefined"
  | VString s => s
  end.

(** [Number.prototype.toString] on the size of a [Map]: a non-negative
    integer far below 1e21, printed in decimal without sign or exponent. *)
Definition Number_toString (n : nat) : string :=
  NilZero.string_of_uint (Nat.to_uint n).

(** [Array.prototype.indexOf] on an array of strings: the index of the first
    element strictly equal to [x], or -1. *)
Fixpoint Array_indexOf_from (l : list string) (x : string) (i : Z) : Z :=
  match l with
  | [] => (-1)%Z
  | y :: l' => if (y =? x)%string then i else Array_indexOf_from l' x (i + 1)%Z
  end.

Definition Array_indexOf (l : list string) (x : string) : Z :=
  Array_indexOf_from l x 0%Z.

(** [l[i]]: reading outside the array yields [undefined]. *)
Definition Array_get (l : list string) (i : Z) : Value :=
  if (i <? 0)%Z then VUndefined
  else match nth_error l (Z.to_nat i) with
       | Some s => VString s
       | None => VUndefined
       end.

(** Values the script can catch: the [TypeError] Node's [path.join] throws
    on an argument that is not a string, and any error raised by a
    collaborator or by the file system. *)
Inductive Exn : Type :=
| TypeError_ERR_INVALID_ARG_TYPE
| HostError (message : string).

(* ================================================================== *)
(** * Data model *)

(** The objects held by [frontendStrings]; the script reads only their
    [string] property. *)
Module FrontendString.
Record t : Type := Build { string : String.string }.
End FrontendString.

(** [frontendStrings] is a JavaScript [Map] from IDS key to frontend string.
    A [Map] iterates in insertion order, so it is kept as the list of its
    entries in that order. *)
Definition FrontendStrings : Type := list (string * FrontendString.t).

Definition Map_size (m : FrontendStrings) : nat := length m.

(** [m.forEach((value, key) => acc = f(acc, value, key))] for a callback that
    only updates a captured variable. *)
Definition Map_forEach {A : Type} (m : FrontendStrings)
    (f : A -> FrontendString.t -> string -> A) (acc : A) : A :=
  fold_left (fun a kv => f a (snd kv) (fst kv)) m acc.

(** [class Arguments]. *)
Record Arguments : Type := new_Arguments {
  rootGenDir : Value;
  outputHeaderFilePath : Value;
  outputCCFilePath : Value
}.

(* ================================================================== *)
(** * Effects *)

(** What [console.log] is handed. *)
Inductive LogArg : Type :=
| LogString (s : string)      (* console.log(s) for a string s *)
| LogValue (e : Exn)          (* console.log(e) *)
| LogStack (e : Exn).         (* console.log(e.stack) *)

(** The observable steps of a run, in program order.  The call of
    [generateDevToolsLocalizedStrings] is recorded as well, so that "the
    generation step is reached" is a property of the trace. *)
Inductive Event : Type :=
| Call_parseLocalizableResourceMaps
| Call_getAndReportResourcesToAdd
| Call_getAndReportIDSKeysToModify
| Call_getAndReportResourcesToRemove
| Console_log (x : LogArg)
| Call_generateDevToolsLocalizedStrings (args : Arguments)
                                        (frontendStrings : FrontendStrings)
| Fs_writeFile (path content : string).

Definition Trace : Type := list Event.
Bind Scope list_scope with Trace.

(** How a computation ends. *)
Inductive Completion (A : Type) : Type :=
| Normal (a : A)
| Thrown (e : Exn)
| Exited (code : Z).
Arguments Normal {A} a.
Arguments Thrown {A} e.
Arguments Exited {A} code.

(** A computation: the events it performed and how it ended. *)
Definition Run (A : Type) : Type := (Trace * Completion A)%type.

Definition trace {A} (r : Run A) : Trace := fst r.
Definition completion {A} (r : Run A) : Completion A := snd r.

Definition ret {A} (a : A) : Run A := ([], Normal a).

Definition bind {A B} (m : Run A) (k : A -> Run B) : Run B :=
  match m with
  | (t, Normal a) => let (t', c) := k a in ((t ++ t')%list, c)
  | (t, Thrown e) => (t, Thrown e)
  | (t, Exited n) => (t, Exited n)
  end.

Declare Scope run_scope.
Delimit Scope run_scope with run.
Notation "x <- m ;; k" := (bind m (fun x => k))
  (at level 100, m at next level, right associativity) : run_scope.
Notation "m ;;; k" := (bind m (fun _ => k))
  (at level 100, right associativity) : run_scope.
Local Open Scope run_scope.

Definition emit (ev : Event) : Run unit := ([ev], Normal tt).

Definition throw {A} (e : Exn) : Run A := ([], Thrown e).

(** [try { body } catch (e) { handler }]. *)
Definition try_catch {A} (body : Run A) (handler : Exn -> Run A) : Run A :=
  match body with
  | (t, Thrown e) => let (t', c) := handler e in ((t ++ t')%list, c)
  | r => r
  end.

(** [process.exit(code)] ends the process at once; nothing after it runs. *)
Definition process_exit {A} (code : Z) : Run A := ([], Exited code).

Definition console_log (x : LogArg) : Run unit := emit (Console_log x).

(** A promise returned by [writeFileAsync], described by how it settles:
    fulfilled ([rejection = None]) or rejected, and when. *)
Record Promise : Type := {
  rejection : option Exn;
  settledAt : nat
}.

(** The rejection [Promise.all] passes on: that of the promise rejected
    first in time (the earlier array element on a tie). *)
Fixpoint first_rejection (ps : list Promise) (best : option (nat * Exn))
  : option (nat * Exn) :=
  match ps with
  | [] => best
  | p :: ps' =>
      match rejection p, best with
      | None, _ => first_rejection ps' best
      | Some e, None => first_rejection ps' (Some (settledAt p, e))
      | Some e, Some (t, _) =>
          if (settledAt p <? t)%nat
          then first_rejection ps' (Some (settledAt p, e))
          else first_rejection ps' best
      end
  end.

(** [await Promise.all(ps)]. *)
Definition Promise_all (ps : list Promise) : Run unit :=
  match first_rejection ps None with
  | Some (_, e) => throw e
  | None => ret tt
  end.

(* ================================================================== *)
(** * The world: the modules the script requires *)

(** [require('../localization/utils/check_localized_strings')].  The parser
    resolves to a pair whose first component is the map (the second is
    discarded by the script) or throws; each report function returns
    [undefined] or a report string. *)
Record CheckLocalizedStrings : Type := {
  parseLocalizableResourceMaps : Exn + FrontendStrings;
  getAndReportResourcesToAdd : Value;
  getAndReportIDSKeysToModify : Value;
  getAndReportResourcesToRemove : Value
}.

(** [require('../localization/utils/localization_utils')]. *)
Record LocalizationUtils : Type := {
  sanitizeStringIntoCppFormat : string -> string
}.

(** [require('path')]: [join] on two strings. *)
Record Path : Type := {
  join : string -> string -> string
}.

(** [require('fs')]: how writing [content] to [path] settles. *)
Record Fs : Type := {
  writeFile : string -> string -> Promise
}.

Record Process : Type := {
  argv : list string
}.

Record World : Type := {
  checkLocalizedStrings : CheckLocalizedStrings;
  localizationUtils : LocalizationUtils;
  path : Path;
  fs : Fs;
  process : Process
}.

(** [path.join(a, b)]: Node validates that every argument is a string. *)
Definition path_join (w : World) (a b : Value) : Run string :=
  match a, b with
  | VString a', VString b' => ret (join (path w) a' b')
  | _, _ => throw TypeError_ERR_INVALID_ARG_TYPE
  end.

(** [writeFileAsync(path, content)]: the write is issued and its promise
    returned. *)
Definition writeFileAsync (w : World) (p content : string) : Run Promise :=
  emit (Fs_writeFile p content) ;;;
  ret (writeFile (fs w) p content).

(** [await checkLocalizedStrings.parseLocalizableResourceMaps()], then
    [[frontendStrings, _] = ...]. *)
Definition await_parseLocalizableResourceMaps (w : World)
  : Run FrontendStrings :=
  emit Call_parseLocalizableResourceMaps ;;;
  match parseLocalizableResourceMaps (checkLocalizedStrings w) with
  | inl e => throw e
  | inr frontendStrings => ret frontendStrings
  end.

Definition call_getAndReportResourcesToAdd (w : World) : Run Value :=
  emit Call_getAndReportResourcesToAdd ;;;
  ret (getAndReportResourcesToAdd (checkLocalizedStrings w)).

Definition call_getAndReportIDSKeysToModify (w : World) : Run Value :=
  emit Call_getAndReportIDSKeysToModify ;;;
  ret (getAndReportIDSKeysToModify (checkLocalizedStrings w)).

Definition call_getAndReportResourcesToRemove (w : World) : Run Value :=
  emit Call_getAndReportResourcesToRemove ;;;
  ret (getAndReportResourcesToRemove (checkLocalizedStrings w)).

(* ================================================================== *)
(** * The script *)

(** [parseArguments(args)]. *)
Definition parseArguments (args : list string) : Arguments :=
  let rootGenDirIndex := Array_indexOf args "--root_gen_dir" in
  let outputHeaderIndex := Array_indexOf args "--output_header" in
  let outputCCIndex := Array_indexOf args "--output_cc" in
  new_Arguments (Array_get args (rootGenDirIndex + 1)%Z)
                (Array_get args (outputHeaderIndex + 1)%Z)
                (Array_get args (outputCCIndex + 1)%Z).

Definition doNotEditStr : string :=
  "// This file is automatically generated by //third_party/devtools-frontend/src/scripts/build/generate_devtools_ui_strings.js. Do not edit.".

(** The template literal [outputHeaderFileContent]. *)
Definition outputHeaderFileContent (frontendStrings : FrontendStrings)
  : string :=
  doNotEditStr ++ LF ++
  LF ++
  "#ifndef CHROME_BROWSER_UI_WEBUI_DEVTOOLS_UI_STRINGS_H_" ++ LF ++
  "#define CHROME_BROWSER_UI_WEBUI_DEVTOOLS_UI_STRINGS_H_" ++ LF ++
  LF ++
  "#include " ++ DQUOTE ++ "chrome/browser/ui/webui/localized_string.h"
    ++ DQUOTE ++ LF ++
  LF ++
  "namespace devtools {" ++ LF ++
  LF ++
  "constexpr unsigned int kLocalizedStringsSize = "
    ++ Number_toString (Map_size frontendStrings) ++ ";" ++ LF ++
  "extern const LocalizedString kLocalizedStrings[kLocalizedStringsSize];"
    ++ LF ++
  LF ++
  "} // namespace devtools" ++ LF ++
  LF ++
  "#endif // CHROME_BROWSER_UI_WEBUI_DEVTOOLS_UI_STRINGS_H_" ++ LF.

(** [let mappingsStr = ''; frontendStrings.forEach(...)]. *)
Definition mappingsStr (w : World) (frontendStrings : FrontendStrings)
  : string :=
  Map_forEach frontendStrings
    (fun mappingsStr frontendString idsKey =>
       mappingsStr ++
       ("  {" ++ DQUOTE
        ++ sanitizeStringIntoCppFormat (localizationUtils w)
             (FrontendString.string frontendString)
        ++ DQUOTE ++ ", " ++ idsKey ++ "}," ++ LF))
    "".

(** The template literal [outputCCFileContent]. *)
Definition outputCCFileContent (w : World) (args : Arguments)
    (frontendStrings : FrontendStrings) : string :=
  doNotEditStr ++ LF ++
  LF ++
  "#include " ++ DQUOTE ++ Value_toString (outputHeaderFilePath args)
    ++ DQUOTE ++ LF ++
  LF ++
  "#include " ++ DQUOTE
    ++ "third_party/devtools-frontend/src/front_end/langpacks/devtools_ui_strings.h"
    ++ DQUOTE ++ LF ++
  LF ++
  "namespace devtools {" ++ LF ++
  LF ++
  "const LocalizedString kLocalizedStrings[] = {" ++ LF ++
  mappingsStr w frontendStrings ++ "};" ++ LF ++
  LF ++
  "} // namespace devtools" ++ LF.

(** [async function generateDevToolsLocalizedStrings(args, frontendStrings)],
    together with the [await] of its caller: the body runs up to its
    [return], issuing both writes, and the awaited [Promise.all] decides how
    the call completes.  An exception thrown in the body rejects the
    returned promise, which the [await] rethrows. *)
Definition generateDevToolsLocalizedStrings (w : World) (args : Arguments)
    (frontendStrings : FrontendStrings) : Run unit :=
  let promises : list Promise := [] in
  outputAbsoluteHeaderFilePath <-
    path_join w (rootGenDir args) (outputHeaderFilePath args) ;;
  outputAbsoluteCCFilePath <-
    path_join w (rootGenDir args) (outputCCFilePath args) ;;
  p <- writeFileAsync w outputAbsoluteHeaderFilePath
         (outputHeaderFileContent frontendStrings) ;;
  let promises := (promises ++ [p])%list in
  p <- writeFileAsync w outputAbsoluteCCFilePath
         (outputCCFileContent w args frontendStrings) ;;
  let promises := (promises ++ [p])%list in
  Promise_all promises.

Definition autofixHint : string :=
  LF ++ "The errors are potentially fixable with `node third_party/devtools-frontend/src/scripts/check_localizable_resources.js --autofix`".

(** The template literal that initialises [error]. *)
Definition initialError (toAddError toModifyError toRemoveError : Value)
  : string :=
  (if truthy toAddError then Value_toString toAddError ++ LF else "") ++
  (if truthy toModifyError then Value_toString toModifyError ++ LF else "") ++
  (if truthy toRemoveError then Value_toString toRemoveError ++ LF else "").

(** [async function main()]. *)
Definition main (w : World) : Run unit :=
  let args := parseArguments (argv (process w)) in
  frontendStrings <-
    try_catch (await_parseLocalizableResourceMaps w)
      (fun e => console_log (LogValue e) ;;; process_exit 1) ;;
  toAddError <- call_getAndReportResourcesToAdd w ;;
  toModifyError <- call_getAndReportIDSKeysToModify w ;;
  toRemoveError <- call_getAndReportResourcesToRemove w ;;
  let error := initialError toAddError toModifyError toRemoveError in
  (if negb (error =? "")%string
   then console_log (LogString (error ++ autofixHint))
   else ret tt) ;;;
  (if truthy toAddError || truthy toModifyError
   then process_exit 1
   else ret tt) ;;;
  try_catch
    (emit (Call_generateDevToolsLocalizedStrings args frontendStrings) ;;;
     generateDevToolsLocalizedStrings w args frontendStrings)
    (fun e =>
       console_log (LogString "Error generating id map files:") ;;;
       console_log (LogStack e) ;;;
       process_exit 1).

(* ================================================================== *)
(** * The sanitizer and the literals it targets *)

Module localization_utils.

(** [scripts/localization/utils/localization_utils.js] is not among the
    sources; its sanitizer is written here from section 4.1 of the
    specification: a pure, total function that escapes control characters,
    quotes and backslashes with escape sequences, so that the output placed
    between double quotes reads back as the input. *)

(** The control characters: codes below 32, and 127. *)
Definition isControl (c : ascii) : bool :=
  (nat_of_ascii c <? 32)%nat || (nat_of_ascii c =? 127)%nat.

Definition octalDigit (n : nat) : ascii := ascii_of_nat (48 + n).

(** A backslash and the three octal digits of the code of [c]. *)
Definition octalEscape (c : ascii) : string :=
  let n := nat_of_ascii c in
  String "\" (String (octalDigit (n / 64))
             (String (octalDigit ((n / 8) mod 8))
             (String (octalDigit (n mod 8)) EmptyString))).

(** Modelled from the spec: the escape of one character, which the missing
    [localization_utils.js] decides.  The double quote and the backslash get
    a backslash in front; line feed, carriage return and tab become [\n],
    [\r] and [\t]; any other control character becomes a three-digit octal
    escape; every other character is kept. *)
Definition escapeChar (c : ascii) : string :=
  if Ascii.eqb c "034" then String "\" DQUOTE
  else if Ascii.eqb c "\" then "\\"
  else if Ascii.eqb c "010" then "\n"
  else if Ascii.eqb c "013" then "\r"
  else if Ascii.eqb c "009" then "\t"
  else if isControl c then octalEscape c
  else String c EmptyString.

(** Modelled from the spec: [sanitizeStringIntoCppFormat] of the missing
    [localization_utils.js], as section 4.1 describes it: every character of
    the input is replaced by its escape. *)
Fixpoint sanitizeStringIntoCppFormat (str : string) : string :=
  match str with
  | EmptyString => EmptyString
  | String c rest => escapeChar c ++ sanitizeStringIntoCppFormat rest
  end.

End localization_utils.

(** Reading an ordinary C++ string literal (ISO C++17 [lex.string],
    [lex.ccon]): between the quotes stand characters other than the double
    quote, the backslash and the new-line, and escape sequences: the simple
    ones, octal escapes of one to three digits, and hexadecimal escapes of
    any length.  An escape whose value does not fit a [char] is ill-formed.
    Universal character names are not read. *)
Module CppLiteral.

Inductive State : Type :=
| Plain                           (* outside an escape sequence *)
| AfterBackslash                  (* a backslash was read *)
| Octal (digits value : nat)      (* one or two octal digits were read *)
| Hex (value : option nat).       (* [\x] and the digits read so far *)

Definition octalValue (c : ascii) : option nat :=
  let n := nat_of_ascii c in
  if (48 <=? n)%nat && (n <=? 55)%nat then Some (n - 48)%nat else None.

Definition hexValue (c : ascii) : option nat :=
  let n := nat_of_ascii c in
  if (48 <=? n)%nat && (n <=? 57)%nat then Some (n - 48)%nat
  else if (65 <=? n)%nat && (n <=? 70)%nat then Some (n - 55)%nat
  else if (97 <=? n)%nat && (n <=? 102)%nat then Some (n - 87)%nat
  else None.

Definition simpleEscape (c : ascii) : option ascii :=
  if Ascii.eqb c "'" then Some "'"%char
  else if Ascii.eqb c "034" then Some "034"%char
  else if Ascii.eqb c "?" then Some "?"%char
  else if Ascii.eqb c "\" then Some "\"%char
  else if Ascii.eqb c "a" then Some "007"%char
  else if Ascii.eqb c "b" then Some "008"%char
  else if Ascii.eqb c "f" then Some "012"%char
  else if Ascii.eqb c "n" then Some "010"%char
  else if Ascii.eqb c "r" then Some "013"%char
  else if Ascii.eqb c "t" then Some "009"%char
  else if Ascii.eqb c "v" then Some "011"%char
  else None.

Definition charOfValue (v : nat) : option ascii :=
  if (v <=? 255)%nat then Some (ascii_of_nat v) else None.

Definition cons_char (c : option ascii) (tail : option string)
  : option string :=
  match c, tail with
  | Some x, Some s => Some (String x s)
  | _, _ => None
  end.

(** The characters denoted by [s], which starts after the opening quote (in
    state [st]) and must end with the closing quote. *)
Fixpoint sChars (st : State) (s : string) {struct s} : option string :=
  match s with
  | EmptyString => None
  | String c rest =>
      let plain (_ : unit) :=
        if Ascii.eqb c "034"
        then match rest with EmptyString => Some EmptyString | _ => None end
        else if Ascii.eqb c "010" then None
        else if Ascii.eqb c "\" then sChars AfterBackslash rest
        else cons_char (Some c) (sChars Plain rest) in
      match st with
      | Plain => plain tt
      | AfterBackslash =>
          match simpleEscape c with
          | Some x => cons_char (Some x) (sChars Plain rest)
          | None =>
              match octalValue c with
              | Some d => sChars (Octal 1 d) rest
              | None =>
                  if Ascii.eqb c "x" then sChars (Hex None) rest else None
              end
          end
      | Octal digits v =>
          match octalValue c with
          | Some d =>
              if (digits =? 1)%nat then sChars (Octal 2 (8 * v + d)) rest
              else cons_char (charOfValue (8 * v + d)) (sChars Plain rest)
          | None => cons_char (charOfValue v) (plain tt)
          end
      | Hex None =>
          match hexValue c with
          | Some d => sChars (Hex (Some d)) rest
          | None => None
          end
      | Hex (Some v) =>
          match hexValue c with
          | Some d => sChars (Hex (Some (16 * v + d))) rest
          | None => cons_char (charOfValue v) (plain tt)
          end
      end
  end.

(** The value of the string literal [text], when [text] is exactly one. *)
Definition stringLiteral (text : string) : option string :=
  match text with
  | String c rest => if Ascii.eqb c "034" then sChars Plain rest else None
  | EmptyString => None
  end.

End CppLiteral.

(* ================================================================== *)
(** * Vocabulary of the specification *)

(** A diff report is non-empty when it is a string with at least one
    character ([undefined] and [''] are the two empty values). *)
Definition report_nonempty (v : Value) : Prop :=
  exists s, v = VString s /\ s <> "".

Definition toAddReport (w : World) : Value :=
  getAndReportResourcesToAdd (checkLocalizedStrings w).
Definition toModifyReport (w : World) : Value :=
  getAndReportIDSKeysToModify (checkLocalizedStrings w).
Definition toRemoveReport (w : World) : Value :=
  getAndReportResourcesToRemove (checkLocalizedStrings w).

(** The generation step was called somewhere in the trace. *)
Definition generation_reached (t : Trace) : Prop :=
  exists args frontendStrings,
    In (Call_generateDevToolsLocalizedStrings args frontendStrings) t.

(** A diff report was read somewhere in the trace. *)
Definition report_read (t : Trace) : Prop :=
  In Call_getAndReportResourcesToAdd t \/
  In Call_getAndReportIDSKeysToModify t \/
  In Call_getAndReportResourcesToRemove t.

(** The files written during a trace, as (path, content), in issue order. *)
Fixpoint writes (t : Trace) : list (string * string) :=
  match t with
  | [] => []
  | Fs_writeFile p c :: t' => (p, c) :: writes t'
  | _ :: t' => writes t'
  end.

(** The build gate blocks: the process exits with status 1 and the
    generation step was never called. *)
Definition gate_blocks (r : Run unit) : Prop :=
  completion r = Exited 1%Z /\ ~ generation_reached (trace r).

(** [sub] occurs in [s]. *)
Definition occurs_in (sub s : string) : Prop :=
  exists before after, s = before ++ sub ++ after.

(** The array element at index 0, [undefined] for an empty array. *)
Definition first_element (l : list string) : Value :=
  match l with
  | [] => VUndefined
  | s :: _ => VString s
  end.

(** Concatenation of a list of strings. *)
Definition concat_all (l : list string) : string :=
  fold_right append "" l.

(** The value a decimal numeral denotes. *)
Definition decimal_value (s : string) : option nat :=
  option_map Nat.of_uint (NilZero.uint_of_string s).

(** Runs [r] after the events [t]. *)
Definition after {A} (t : Trace) (r : Run A) : Run A :=
  ((t ++ trace r)%list, completion r).
Arguments after {A} t%_list r.

(** The events that read the parse result and the three reports. *)
Definition reads : Trace :=
  [Call_parseLocalizableResourceMaps; Call_getAndReportResourcesToAdd;
   Call_getAndReportIDSKeysToModify; Call_getAndReportResourcesToRemove].

(** The events of lines 53-59: the diagnostic, when there is one. *)
Definition diagnostics (w : World) : Trace :=
  let error :=
    initialError (toAddReport w) (toModifyReport w) (toRemoveReport w) in
  if negb (error =? "")%string
  then [Console_log (LogString (error ++ autofixHint))]
  else [].

(** Lines 66-72: the guarded call of the generation step. *)
Definition guarded_generation (w : World) (frontendStrings : FrontendStrings)
  : Run unit :=
  let args := parseArguments (argv (process w)) in
  try_catch
    (emit (Call_generateDevToolsLocalizedStrings args frontendStrings) ;;;
     generateDevToolsLocalizedStrings w args frontendStrings)
    (fun e =>
       console_log (LogString "Error generating id map files:") ;;;
       console_log (LogStack e) ;;;
       process_exit 1).

(** The two writes the generation step issues when its three arguments are
    strings. *)
Definition headerWrite (w : World) (root header : string)
    (frontendStrings : FrontendStrings) : string * string :=
  (join (path w) root header, outputHeaderFileContent frontendStrings).

Definition ccWrite (w : World) (root header cc : string)
    (frontendStrings : FrontendStrings) : string * string :=
  (join (path w) root cc,
   outputCCFileContent w
     (new_Arguments (VString root) (VString header) (VString cc))
     frontendStrings).

Definition write_event (pc : string * string) : Event :=
  Fs_writeFile (fst pc) (snd pc).

Definition write_promise (w : World) (pc : string * string) : Promise :=
  writeFile (fs w) (fst pc) (snd pc).

Definition some_argument_undefined (args : Arguments) : Prop :=
  rootGenDir args = VUndefined \/
  outputHeaderFilePath args = VUndefined \/
  outputCCFilePath args = VUndefined.

Definition generationFailureLog (e : Exn) : Trace :=
  [Console_log (LogString "Error generating id map files:");
   Console_log (LogStack e)].

(** The pointer to the self-fix tool, without the line feed before it. *)
Definition selfFixPointer : string :=
  "The errors are potentially fixable with `node third_party/devtools-frontend/src/scripts/check_localizable_resources.js --autofix`".

(** [c] is one of the characters of [s]. *)
Fixpoint has_char (c : ascii) (s : string) : bool :=
  match s with
  | EmptyString => false
  | String x s' => Ascii.eqb x c || has_char c s'
  end.

(** What a run may print besides the diff diagnostic: the two lines of the
    generation failure handler. *)
Definition generation_failure_line (x : LogArg) : Prop :=
  x = LogString "Error generating id map files:" \/ exists e, x = LogStack e.

(** One array entry of the definition artifact, as the specification
    describes it: the sanitized text in double quotes, then the IDS key. *)
Definition definitionEntry (w : World) (item : string * FrontendString.t)
  : string :=
  "  {" ++ DQUOTE
  ++ sanitizeStringIntoCppFormat (localizationUtils w)
       (FrontendString.string (snd item))
  ++ DQUOTE ++ ", " ++ fst item ++ "}," ++ LF.

(** What precedes and what follows the entries in the definition artifact. *)
Definition definitionPrologue (header : string) : string :=
  doNotEditStr ++ LF ++ LF ++
  "#include " ++ DQUOTE ++ header ++ DQUOTE ++ LF ++ LF ++
  "#include " ++ DQUOTE
    ++ "third_party/devtools-frontend/src/front_end/langpacks/devtools_ui_strings.h"
    ++ DQUOTE ++ LF ++ LF ++
  "namespace devtools {" ++ LF ++ LF ++
  "const LocalizedString kLocalizedStrings[] = {" ++ LF.

Definition definitionEpilogue : string :=
  "};" ++ LF ++ LF ++ "} // namespace devtools" ++ LF.

Definition includeGuard : string :=
  "CHROME_BROWSER_UI_WEBUI_DEVTOOLS_UI_STRINGS_H_".

(** The declaration artifact around the literal that gives the array size. *)
Definition declarationArtifact (sizeLiteral : string) : string :=
  doNotEditStr ++ LF ++ LF ++
  "#ifndef " ++ includeGuard ++ LF ++
  "#define " ++ includeGuard ++ LF ++ LF ++
  "#include " ++ DQUOTE ++ "chrome/browser/ui/webui/localized_string.h"
    ++ DQUOTE ++ LF ++ LF ++
  "namespace devtools {" ++ LF ++ LF ++
  "constexpr unsigned int kLocalizedStringsSize = " ++ sizeLiteral ++ ";"
    ++ LF ++
  "extern const LocalizedString kLocalizedStrings[kLocalizedStringsSize];"
    ++ LF ++ LF ++
  "} // namespace devtools" ++ LF ++ LF ++
  "#endif // " ++ includeGuard ++ LF.

(** The contents written during a trace, in issue order. *)
Definition contents_written (t : Trace) : list string :=
  map snd (writes t).

(* ================================================================== *)
(** * Example worlds *)

(** A command line giving the three flags. *)
Definition exampleArgv : list string :=
  ["node"; "generate_devtools_ui_strings.js"; "--root_gen_dir"; "gen";
   "--output_header"; "devtools_ui_strings_map.h";
   "--output_cc"; "devtools_ui_strings_map.cc"].

Definition exampleStrings : FrontendStrings :=
  [("IDS_DEVTOOLS_HELLO", FrontendString.Build "Hello");
   ("IDS_DEVTOOLS_QUOTE",
    FrontendString.Build ("He said " ++ DQUOTE ++ "hi" ++ DQUOTE ++ "\"))].

Definition fulfilled : Promise := {| rejection := None; settledAt := 1 |}.

Definition rejected (message : string) : Promise :=
  {| rejection := Some (HostError message); settledAt := 1 |}.

(** A world from the parse result, the three reports and the behaviour of
    the file system; paths are joined with a slash. *)
Definition exampleWorld (parsed : Exn + FrontendStrings)
    (toAdd toModify toRemove : Value) (write : string -> string -> Promise)
  : World :=
  {| checkLocalizedStrings :=
       {| parseLocalizableResourceMaps := parsed;
          getAndReportResourcesToAdd := toAdd;
          getAndReportIDSKeysToModify := toModify;
          getAndReportResourcesToRemove := toRemove |};
     localizationUtils :=
       {| sanitizeStringIntoCppFormat :=
            localization_utils.sanitizeStringIntoCppFormat |};
     path := {| join := fun a b => a ++ "/" ++ b |};
     fs := {| writeFile := write |};
     process := {| argv := exampleArgv |} |}.

(** Only stale catalog entries: the toRemove report alone is non-empty. *)
Definition staleWorld : World :=
  exampleWorld (inr exampleStrings) VUndefined VUndefined
    (VString "The message IDS_DEVTOOLS_OLD should be removed.")
    (fun _ _ => fulfilled).

(** A string is missing from the catalog. *)
Definition missingWorld : World :=
  exampleWorld (inr exampleStrings)
    (VString "The string Hello needs to be added.") VUndefined VUndefined
    (fun _ _ => fulfilled).

(** The parser throws. *)
Definition unparsedWorld : World :=
  exampleWorld (inl (HostError "cannot read the GRD file"))
    VUndefined VUndefined VUndefined (fun _ _ => fulfilled).

(** No diff at all, and a file system that rejects every write. *)
Definition diskFullWorld : World :=
  exampleWorld (inr exampleStrings) VUndefined VUndefined VUndefined
    (fun _ _ => rejected "ENOSPC").

(* ================================================================== *)
(** * Vocabulary of the further properties *)

(** The three flags [parseArguments] looks for. *)
Definition theFlags : list string :=
  ["--root_gen_dir"; "--output_header"; "--output_cc"].

(** A command line tail written as flag/value pairs. *)
Definition flagsLine (pairs : list (string * string)) : list string :=
  flat_map (fun fv => [fst fv; snd fv]) pairs.

(** The value of the first pair whose flag is [flag]. *)
Fixpoint firstValue (flag : string) (pairs : list (string * string))
  : option string :=
  match pairs with
  | [] => None
  | fv :: rest =>
      if (fst fv =? flag)%string then Some (snd fv)
      else firstValue flag rest
  end.

(** The text of the non-empty reports among [reports], each followed by a
    line feed. *)
Definition reportLines (reports : list Value) : string :=
  concat_all (map (fun v => Value_toString v ++ LF) (filter truthy reports)).

(** The world [w] with [v] as its toRemove report. *)
Definition withToRemoveReport (v : Value) (w : World) : World :=
  {| checkLocalizedStrings :=
       {| parseLocalizableResourceMaps :=
            parseLocalizableResourceMaps (checkLocalizedStrings w);
          getAndReportResourcesToAdd :=
            getAndReportResourcesToAdd (checkLocalizedStrings w);
          getAndReportIDSKeysToModify :=
            getAndReportIDSKeysToModify (checkLocalizedStrings w);
          getAndReportResourcesToRemove := v |};
     localizationUtils := localizationUtils w;
     path := path w;
     fs := fs w;
     process := process w |}.

(** The command line ends with the first occurrence of one of the flags, or
    is empty: some flag has no value after it. *)
Definition value_missing (args : list string) : Prop :=
  args = [] \/
  exists flag before,
    In flag theFlags /\ args = (before ++ [flag])%list /\ ~ In flag before.

(** A file system whose declaration write is rejected and whose definition
    write is fulfilled. *)
Definition headerRejectedWorld : World :=
  exampleWorld (inr exampleStrings) VUndefined VUndefined VUndefined
    (fun p _ =>
       if (p =? "gen/devtools_ui_strings_map.h")%string
       then rejected "EACCES" else fulfilled).

(** A file system that rejects both writes, the definition write first. *)
Definition bothRejectedWorld : World :=
  exampleWorld (inr exampleStrings) VUndefined VUndefined VUndefined
    (fun p _ =>
       if (p =? "gen/devtools_ui_strings_map.h")%string
       then {| rejection := Some (HostError "EACCES"); settledAt := 2 |}
       else {| rejection := Some (HostError "ENOSPC"); settledAt := 1 |}).

(** A run started without any of the flags. *)
Definition noFlagsWorld : World :=
  {| checkLocalizedStrings := checkLocalizedStrings staleWorld;
     localizationUtils := localizationUtils staleWorld;
     path := path staleWorld;
     fs := fs staleWorld;
     process := {| argv := ["node"; "generate_devtools_ui_strings.js"] |} |}.

(** A run whose command line stops after [--output_cc]. *)
Definition truncatedWorld : World :=
  {| checkLocalizedStrings := checkLocalizedStrings staleWorld;
     localizationUtils := localizationUtils staleWorld;
     path := path staleWorld;
     fs := fs staleWorld;
     process :=
       {| argv := ["node"; "generate_devtools_ui_strings.js";
                   "--root_gen_dir"; "gen"; "--output_header"; "map.h";
                   "--output_cc"] |} |}.

(* ================================================================== *)
(** * The declaration file, spelled out *)

(** The banner a generated file must start with, character by character. *)
Definition generatedFileBanner : string :=
  "// This file is automatically generated by //third_party/devtools-frontend/src/scripts/build/generate_devtools_ui_strings.js. Do not edit.".

(** The expected text of the declaration file around the literal that gives
    the array size: banner, include guard, the [constexpr] constant and the
    [extern] declaration of the array sized by it. *)
Definition declarationFile (sizeLiteral : string) : string :=
  generatedFileBanner ++ LF ++
  LF ++
  "#ifndef CHROME_BROWSER_UI_WEBUI_DEVTOOLS_UI_STRINGS_H_" ++ LF ++
  "#define CHROME_BROWSER_UI_WEBUI_DEVTOOLS_UI_STRINGS_H_" ++ LF ++
  LF ++
  "#include " ++ DQUOTE ++ "chrome/browser/ui/webui/localized_string.h"
    ++ DQUOTE ++ LF ++
  LF ++
  "namespace devtools {" ++ LF ++
  LF ++
  "constexpr unsigned int kLocalizedStringsSize = " ++ sizeLiteral ++ ";"
    ++ LF ++
  "extern const LocalizedString kLocalizedStrings[kLocalizedStringsSize];"
    ++ LF ++
  LF ++
  "} // namespace devtools" ++ LF ++
  LF ++
  "#endif // CHROME_BROWSER_UI_WEBUI_DEVTOOLS_UI_STRINGS_H_" ++ LF.

(** The value of a decimal digit character. *)
Definition digitValue (c : ascii) : option nat :=
  let n := nat_of_ascii c in
  if (48 <=? n)%nat && (n <=? 57)%nat then Some (n - 48)%nat else None.

(** The value of a run of digits in [base], continuing from [acc]. *)
Fixpoint readDigits (base acc : nat) (s : string) : option nat :=
  match s with
  | EmptyString => Some acc
  | String c rest =>
      match digitValue c with
      | Some d =>
          if (d <? base)%nat then readDigits base (base * acc + d) rest
          else None
      | None => None
      end
  end.

(** The value of a C++ integer literal made of digits only (ISO C++17
    [lex.icon]): a literal that starts with a non-zero digit is decimal, one
    that starts with [0] is octal.  Hexadecimal and binary literals, digit
    separators and suffixes are not read. *)
Definition cppIntegerLiteral (s : string) : option nat :=
  match s with
  | EmptyString => None
  | String c rest =>
      if Ascii.eqb c "0" then readDigits 8 0 rest
      else match digitValue c with
           | Some d => readDigits 10 d rest
           | None => None
           end
  end.

(* ================================================================== *)
(** * The generation step with a sanitizer that may throw *)

(** The template literal [outputCCFileContent] around the text of the
    entries. *)
Definition outputCCFileContentOf (args : Arguments) (mappingsStr : string)
  : string :=
  doNotEditStr ++ LF ++
  LF ++
  "#include " ++ DQUOTE ++ Value_toString (outputHeaderFilePath args)
    ++ DQUOTE ++ LF ++
  LF ++
  "#include " ++ DQUOTE
    ++ "third_party/devtools-frontend/src/front_end/langpacks/devtools_ui_strings.h"
    ++ DQUOTE ++ LF ++
  LF ++
  "namespace devtools {" ++ LF ++
  LF ++
  "const LocalizedString kLocalizedStrings[] = {" ++ LF ++
  mappingsStr ++ "};" ++ LF ++
  LF ++
  "} // namespace devtools" ++ LF.

(** [frontendStrings.forEach(...)] (lines 102-104) when the call of
    [sanitizeStringIntoCppFormat] may throw: the exception leaves the
    callback and [forEach], so the loop stops at the first item it cannot
    sanitize. *)
Fixpoint forEach_sanitizing (sanitize : string -> Exn + string)
    (frontendStrings : FrontendStrings) (mappingsStr : string)
  : Exn + string :=
  match frontendStrings with
  | [] => inr mappingsStr
  | (idsKey, frontendString) :: rest =>
      match sanitize (FrontendString.string frontendString) with
      | inl e => inl e
      | inr text =>
          forEach_sanitizing sanitize rest
            (mappingsStr ++
             ("  {" ++ DQUOTE ++ text ++ DQUOTE ++ ", " ++ idsKey ++ "},"
              ++ LF))
      end
  end.

(** [generateDevToolsLocalizedStrings] (lines 76-122) with such a
    sanitizer.  The declaration write is issued on line 99, before the loop;
    an exception thrown in the loop rejects the promise of the async
    function, so the definition write is never issued and [Promise.all] is
    never reached. *)
Definition generateDevToolsLocalizedStrings_throwing
    (sanitize : string -> Exn + string) (w : World) (args : Arguments)
    (frontendStrings : FrontendStrings) : Run unit :=
  let promises : list Promise := [] in
  outputAbsoluteHeaderFilePath <-
    path_join w (rootGenDir args) (outputHeaderFilePath args) ;;
  outputAbsoluteCCFilePath <-
    path_join w (rootGenDir args) (outputCCFilePath args) ;;
  p <- writeFileAsync w outputAbsoluteHeaderFilePath
         (outputHeaderFileContent frontendStrings) ;;
  let promises := (promises ++ [p])%list in
  match forEach_sanitizing sanitize frontendStrings "" with
  | inl e => throw e
  | inr mappingsStr =>
      p <- writeFileAsync w outputAbsoluteCCFilePath
             (outputCCFileContentOf args mappingsStr) ;;
      let promises := (promises ++ [p])%list in
      Promise_all promises
  end.

(** The sanitizer of the world [w], which never throws. *)
Definition totalSanitizer (w : World) (text : string) : Exn + string :=
  inr (sanitizeStringIntoCppFormat (localizationUtils w) text).

(** A sanitizer that rejects texts holding the character of code 0 and
    keeps every other text. *)
Definition rejectingNul (text : string) : Exn + string :=
  if has_char "000" text then inl (HostError "EncodingError")
  else inr text.

(* ================================================================== *)
(** * parseArguments *)

Lemma Array_indexOf_from_first (before after : list string) (x : string) (i : Z) :
  ~ In x before ->
  Array_indexOf_from (before ++ x :: after) x i = (i + Z.of_nat (length before))%Z.
Proof.
  revert i. induction before as [|y before IH]; intros i Hnot; simpl.
  - rewrite String.eqb_refl. lia.
  - destruct (String.eqb_spec y x) as [->|_].
    + exfalso. apply Hnot. now left.
    + rewrite IH by (intro H; apply Hnot; now right). lia.
Qed.

Lemma Array_indexOf_from_absent (l : list string) (x : string) (i : Z) :
  ~ In x l -> Array_indexOf_from l x i = (-1)%Z.
Proof.
  revert i. induction l as [|y l IH]; intros i Hnot; simpl; [reflexivity|].
  destruct (String.eqb_spec y x) as [->|_].
  - exfalso. apply Hnot. now left.
  - apply IH. intro H. apply Hnot. now right.
Qed.

Lemma Array_get_zero (l : list string) : Array_get l 0 = first_element l.
Proof. now destruct l. Qed.

Lemma Array_get_after (before after : list string) (x : string) :
  Array_get (before ++ x :: after) (Z.of_nat (length before) + 1)
  = first_element after.
Proof.
  unfold Array_get.
  destruct (Z.ltb_spec (Z.of_nat (length before) + 1) 0) as [Hlt|_]; [lia|].
  replace (Z.to_nat (Z.of_nat (length before) + 1)) with (length before + 1)%nat
    by lia.
  rewrite nth_error_app2 by lia.
  replace (length before + 1 - length before)%nat with 1%nat by lia.
  now destruct after.
Qed.

Lemma field_after_flag (flag : string) (before after : list string) :
  ~ In flag before ->
  Array_get (before ++ flag :: after)
            (Array_indexOf (before ++ flag :: after) flag + 1)
  = first_element after.
Proof.
  intros Hnot. unfold Array_indexOf.
  rewrite Array_indexOf_from_first by assumption.
  apply Array_get_after.
Qed.

Lemma field_without_flag (flag : string) (args : list string) :
  ~ In flag args ->
  Array_get args (Array_indexOf args flag + 1) = first_element args.
Proof.
  intros Hnot. unfold Array_indexOf.
  rewrite Array_indexOf_from_absent by assumption.
  apply Array_get_zero.
Qed.

(** C10. [parseArguments] is a total function with no error result.  For
    each of the three flags: when the flag occurs in the argument list, the
    corresponding field is the element that follows its first occurrence
    ([undefined] when the flag is the last element); when the flag does not
    occur, the field is the element at index 0 of the list. *)
Theorem parseArguments_fields (args : list string) :
  (forall before after,
      args = (before ++ "--root_gen_dir" :: after)%list ->
      ~ In "--root_gen_dir" before ->
      rootGenDir (parseArguments args) = first_element after) /\
  (~ In "--root_gen_dir" args ->
      rootGenDir (parseArguments args) = Array_get args 0) /\
  (forall before after,
      args = (before ++ "--output_header" :: after)%list ->
      ~ In "--output_header" before ->
      outputHeaderFilePath (parseArguments args) = first_element after) /\
  (~ In "--output_header" args ->
      outputHeaderFilePath (parseArguments args) = Array_get args 0) /\
  (forall before after,
      args = (before ++ "--output_cc" :: after)%list ->
      ~ In "--output_cc" before ->
      outputCCFilePath (parseArguments args) = first_element after) /\
  (~ In "--output_cc" args ->
      outputCCFilePath (parseArguments args) = Array_get args 0).
Proof.
  unfold parseArguments; cbn [rootGenDir outputHeaderFilePath outputCCFilePath].
  rewrite Array_get_zero.
  repeat split;
    try (intros before after -> Hnot; now apply field_after_flag);
    intros Hnot; now apply field_without_flag.
Qed.

(** The theorem at work on a command line that gives two flags and omits
    [--output_cc]: that field falls back to element 0. *)
Lemma parseArguments_fields_witness :
  rootGenDir (parseArguments
    ["node"; "gen.js"; "--root_gen_dir"; "out"; "--output_header"; "a.h"])
  = VString "out" /\
  outputCCFilePath (parseArguments
    ["node"; "gen.js"; "--root_gen_dir"; "out"; "--output_header"; "a.h"])
  = VString "node".
Proof.
  pose proof (parseArguments_fields
    ["node"; "gen.js"; "--root_gen_dir"; "out"; "--output_header"; "a.h"])
    as (Hroot & _ & _ & _ & _ & Hcc).
  split.
  - apply (Hroot ["node"; "gen.js"] ["out"; "--output_header"; "a.h"]).
    + reflexivity.
    + simpl. intros [H|[H|[]]]; discriminate H.
  - rewrite Hcc; [reflexivity|].
    simpl. intros [H|[H|[H|[H|[H|[H|[]]]]]]]; discriminate H.
Defined.

(* ================================================================== *)
(** * Shape of a run *)

Arguments outputHeaderFileContent : simpl never.
Arguments outputCCFileContent : simpl never.
Arguments initialError : simpl never.
Arguments autofixHint : simpl never.
Arguments parseArguments : simpl never.
Arguments generateDevToolsLocalizedStrings : simpl never.

(** Closes a goal [False] from [H : In ev t] when no element of the
    explicit list [t] is built like [ev]. *)
Ltac no_such_event H :=
  simpl in H;
  repeat (destruct H as [H|H]; [discriminate H|]);
  exact H.

Lemma truthy_nonempty (v : Value) : truthy v = true <-> report_nonempty v.
Proof.
  unfold report_nonempty. destruct v as [|s]; simpl.
  - split; [discriminate|]. intros (s & H & _). discriminate H.
  - destruct (String.eqb_spec s "") as [->|Hne]; simpl.
    + split; [discriminate|]. intros (s' & [= <-] & Hne). now elim Hne.
    + split; [|reflexivity]. intros _. now exists s.
Qed.

Lemma truthy_empty (v : Value) : truthy v = false <-> ~ report_nonempty v.
Proof.
  rewrite <- truthy_nonempty. destruct (truthy v); split; congruence.
Qed.

Lemma undefined_report_empty : ~ report_nonempty VUndefined.
Proof. intros (s & H & _). discriminate H. Qed.

(** ** The generation step *)

(** With three string arguments the generation step issues the two writes
    and completes as [Promise.all] over their promises does. *)
Lemma generate_with_strings (w : World) (root header cc : string)
    (frontendStrings : FrontendStrings) :
  generateDevToolsLocalizedStrings w
    (new_Arguments (VString root) (VString header) (VString cc))
    frontendStrings
  = after [write_event (headerWrite w root header frontendStrings);
           write_event (ccWrite w root header cc frontendStrings)]
      (Promise_all
         [write_promise w (headerWrite w root header frontendStrings);
          write_promise w (ccWrite w root header cc frontendStrings)]).
Proof.
  unfold generateDevToolsLocalizedStrings, path_join, writeFileAsync, after,
    write_event, write_promise, headerWrite, ccWrite.
  cbn [rootGenDir outputHeaderFilePath outputCCFilePath bind ret emit app
       fst snd].
  destruct (Promise_all _) as [t c] eqn:E.
  assert (Ht : t = []).
  { revert E. unfold Promise_all.
    destruct (first_rejection _ None) as [[? ?]|]; intros [= <- _]; reflexivity. }
  subst t. destruct c; reflexivity.
Qed.

(** With an argument that is [undefined], [path.join] throws before any
    write is issued. *)
Lemma generate_without_strings (w : World) (args : Arguments)
    (frontendStrings : FrontendStrings) :
  some_argument_undefined args ->
  generateDevToolsLocalizedStrings w args frontendStrings
  = ([], Thrown TypeError_ERR_INVALID_ARG_TYPE).
Proof.
  unfold some_argument_undefined, generateDevToolsLocalizedStrings, path_join.
  destruct args as [[|root] [|header] [|cc]]; cbn;
    intros [H|[H|H]]; try discriminate H; reflexivity.
Qed.

Lemma arguments_cases (args : Arguments) :
  (exists root header cc,
      args = new_Arguments (VString root) (VString header) (VString cc)) \/
  some_argument_undefined args.
Proof.
  unfold some_argument_undefined.
  destruct args as [[|root] [|header] [|cc]]; cbn; eauto 6.
Qed.

(** ** Promise.all *)

Lemma first_rejection_origin (ps : list Promise) (best : option (nat * Exn))
    (t : nat) (e : Exn) :
  first_rejection ps best = Some (t, e) ->
  best = Some (t, e) \/ exists p, In p ps /\ rejection p = Some e.
Proof.
  revert best. induction ps as [|p ps IH]; intros best H; simpl in H.
  - now left.
  - destruct (rejection p) as [e'|] eqn:Hp.
    + assert (Hnew : first_rejection ps (Some (settledAt p, e')) = Some (t, e) ->
                     best = Some (t, e) \/
                     exists q, In q (p :: ps) /\ rejection q = Some e).
      { intros H'. apply IH in H' as [[= _ <-]|(q & Hq & Hr)].
        - right. exists p. split; [now left|assumption].
        - right. exists q. split; [now right|assumption]. }
      destruct best as [[t0 e0]|]; [|now apply Hnew].
      destruct (settledAt p <? t0)%nat; [now apply Hnew|].
      apply IH in H as [H|(q & Hq & Hr)]; [now left|].
      right. exists q. split; [now right|assumption].
    + apply IH in H as [H|(q & Hq & Hr)]; [now left|].
      right. exists q. split; [now right|assumption].
Qed.

Lemma first_rejection_kept (ps : list Promise) (best : nat * Exn) :
  first_rejection ps (Some best) <> None.
Proof.
  revert best. induction ps as [|p ps IH]; intros [t e]; simpl.
  - discriminate.
  - destruct (rejection p); [|apply IH].
    destruct (settledAt p <? t)%nat; apply IH.
Qed.

Lemma first_rejection_none (ps : list Promise) :
  first_rejection ps None = None ->
  Forall (fun p => rejection p = None) ps.
Proof.
  induction ps as [|p ps IH]; simpl; intros H; [constructor|].
  destruct (rejection p) eqn:Hp.
  - now apply first_rejection_kept in H.
  - constructor; auto.
Qed.

(** [await Promise.all(ps)] performs no event; it completes normally when
    every promise is fulfilled and otherwise throws the rejection of one of
    them. *)
Lemma Promise_all_cases (ps : list Promise) :
  (Forall (fun p => rejection p = None) ps /\ Promise_all ps = ([], Normal tt)) \/
  (exists p e, In p ps /\ rejection p = Some e /\
               Promise_all ps = ([], Thrown e)).
Proof.
  unfold Promise_all.
  destruct (first_rejection ps None) as [[t e]|] eqn:H.
  - right. apply first_rejection_origin in H as [H|(p & Hp & Hr)];
      [discriminate H|].
    exists p, e. auto.
  - left. split; [now apply first_rejection_none|reflexivity].
Qed.

(** ** Lines 66-72 *)

(** The guarded generation step ends in one of three ways: an argument is
    not a string and nothing is written; both writes are issued and
    fulfilled; both writes are issued and one of them is rejected. *)
Lemma guarded_generation_cases (w : World) (frontendStrings : FrontendStrings) :
  let args := parseArguments (argv (process w)) in
  let call := Call_generateDevToolsLocalizedStrings args frontendStrings in
  (some_argument_undefined args /\
   guarded_generation w frontendStrings
   = (call :: generationFailureLog TypeError_ERR_INVALID_ARG_TYPE,
      Exited 1%Z)) \/
  (exists root header cc,
      args = new_Arguments (VString root) (VString header) (VString cc) /\
      let hw := headerWrite w root header frontendStrings in
      let cw := ccWrite w root header cc frontendStrings in
      (rejection (write_promise w hw) = None /\
       rejection (write_promise w cw) = None /\
       guarded_generation w frontendStrings
       = ([call; write_event hw; write_event cw], Normal tt)) \/
      (exists e,
          (rejection (write_promise w hw) = Some e \/
           rejection (write_promise w cw) = Some e) /\
          guarded_generation w frontendStrings
          = ((call :: write_event hw :: write_event cw ::
              generationFailureLog e)%list, Exited 1%Z))).
Proof.
  intros args call. unfold guarded_generation. fold args. fold call.
  destruct (arguments_cases args) as [(root & header & cc & Hargs)|Hundef].
  - right. exists root, header, cc. split; [assumption|].
    rewrite Hargs, generate_with_strings.
    destruct (Promise_all_cases
      [write_promise w (headerWrite w root header frontendStrings);
       write_promise w (ccWrite w root header cc frontendStrings)])
      as [[Hall ->]|(p & e & Hin & Hrej & ->)].
    + left. inversion Hall as [|? ? Hh Hrest]; subst.
      inversion Hrest as [|? ? Hc _]; subst.
      repeat split; assumption.
    + right. exists e. split; [|reflexivity].
      destruct Hin as [<-|[<-|[]]]; auto.
  - left. split; [assumption|].
    now rewrite generate_without_strings.
Qed.

Lemma guarded_generation_reached (w : World) (frontendStrings : FrontendStrings) :
  generation_reached (trace (guarded_generation w frontendStrings)).
Proof.
  exists (parseArguments (argv (process w))), frontendStrings.
  destruct (guarded_generation_cases w frontendStrings)
    as [[_ ->]|(root & header & cc & _ & [(_ & _ & ->)|(e & _ & ->)])];
    now left.
Qed.

Lemma guarded_generation_logs (w : World) (frontendStrings : FrontendStrings)
    (x : LogArg) :
  In (Console_log x) (trace (guarded_generation w frontendStrings)) ->
  generation_failure_line x.
Proof.
  unfold generation_failure_line, write_event.
  destruct (guarded_generation_cases w frontendStrings)
    as [[_ ->]|(root & header & cc & _ & [(_ & _ & ->)|(e & _ & ->)])];
    cbn [trace fst generationFailureLog In write_event];
    intros H;
    repeat (destruct H as [H|H];
            [first [discriminate H | injection H as Hx; subst x; eauto]|]);
    contradiction.
Qed.

(** ** Lines 50-59 *)

Lemma diagnostics_cases (w : World) :
  diagnostics w = [] \/
  diagnostics w =
    [Console_log (LogString
       (initialError (toAddReport w) (toModifyReport w) (toRemoveReport w)
        ++ autofixHint))].
Proof.
  unfold diagnostics. cbv zeta.
  destruct (negb _); [now right|now left].
Qed.

Lemma reads_diagnostics_no_generation (w : World) :
  ~ generation_reached (reads ++ diagnostics w).
Proof.
  intros (args & frontendStrings & Hin).
  apply in_app_or in Hin as [Hin|Hin].
  - unfold reads in Hin. no_such_event Hin.
  - destruct (diagnostics_cases w) as [E|E]; rewrite E in Hin;
      no_such_event Hin.
Qed.

Lemma writes_app (t t' : Trace) : writes (t ++ t') = (writes t ++ writes t')%list.
Proof.
  induction t as [|ev t IH]; simpl; [reflexivity|].
  destruct ev; simpl; rewrite IH; reflexivity.
Qed.

Lemma reads_diagnostics_no_write (w : World) :
  writes (reads ++ diagnostics w) = [].
Proof.
  rewrite writes_app.
  destruct (diagnostics_cases w) as [E|E]; rewrite E; reflexivity.
Qed.

Lemma append_assoc (a b c : string) : (a ++ b) ++ c = a ++ (b ++ c).
Proof. induction a as [|x a IH]; simpl; [reflexivity|now rewrite IH]. Qed.

Lemma append_nil_r (a : string) : a ++ "" = a.
Proof. induction a as [|x a IH]; simpl; [reflexivity|now rewrite IH]. Qed.

Lemma occurs_in_refl (s : string) : occurs_in s s.
Proof. exists "", "". now rewrite append_nil_r. Qed.

Lemma occurs_in_append_l (sub a b : string) :
  occurs_in sub a -> occurs_in sub (a ++ b).
Proof.
  intros (x & y & ->). exists x, (y ++ b). now rewrite !append_assoc.
Qed.

Lemma occurs_in_append_r (sub a b : string) :
  occurs_in sub b -> occurs_in sub (a ++ b).
Proof.
  intros (x & y & ->). exists (a ++ x), y. now rewrite !append_assoc.
Qed.

Lemma has_char_append (c : ascii) (a b : string) :
  has_char c (a ++ b) = has_char c a || has_char c b.
Proof.
  induction a as [|x a IH]; simpl; [reflexivity|].
  now rewrite IH, orb_assoc.
Qed.

Lemma selfFixPointer_one_line : ~ occurs_in LF selfFixPointer.
Proof.
  intros (x & y & H).
  assert (Hc : has_char (ascii_of_nat 10) selfFixPointer = true).
  { rewrite H, !has_char_append. simpl. now rewrite orb_true_r. }
  vm_compute in Hc. discriminate Hc.
Qed.

Lemma initialError_empty (a m r : Value) :
  truthy a = false -> truthy m = false -> truthy r = false ->
  initialError a m r = "".
Proof. intros Ha Hm Hr. unfold initialError. now rewrite Ha, Hm, Hr. Qed.

Lemma nonempty_append_LF (s t : string) : (s ++ LF) ++ t <> "".
Proof. destruct s; discriminate. Qed.

Lemma initialError_nonempty (a m r : Value) :
  truthy a || truthy m || truthy r = true ->
  (initialError a m r =? "")%string = false.
Proof.
  intros H. apply String.eqb_neq. unfold initialError.
  destruct (truthy a).
  - apply nonempty_append_LF.
  - destruct (truthy m).
    + apply nonempty_append_LF.
    + destruct (truthy r); [|discriminate H].
      simpl. rewrite <- (append_nil_r (_ ++ LF)). apply nonempty_append_LF.
Qed.

(** Every non-empty report occurs in the message built on lines 53-54. *)
Lemma initialError_lists_reports (a m r : Value) (s : string) :
  a = VString s \/ m = VString s \/ r = VString s ->
  s <> "" ->
  occurs_in s (initialError a m r).
Proof.
  intros Hs Hne. unfold initialError.
  assert (Ht : truthy (VString s) = true).
  { simpl. now destruct (String.eqb_spec s ""). }
  destruct Hs as [-> | [-> | ->]]; rewrite Ht; cbn [Value_toString].
  - apply occurs_in_append_l, occurs_in_append_l, occurs_in_refl.
  - apply occurs_in_append_r, occurs_in_append_l, occurs_in_append_l,
      occurs_in_refl.
  - apply occurs_in_append_r, occurs_in_append_r, occurs_in_append_l,
      occurs_in_refl.
Qed.

(* ================================================================== *)
(** * Runs whose parse step succeeded *)

Section ParsedRun.

Variable w : World.
Variable frontendStrings : FrontendStrings.
Hypothesis parsed :
  parseLocalizableResourceMaps (checkLocalizedStrings w) = inr frontendStrings.

(** The run after a successful parse: the four reads, the diagnostic, then
    either the exit of the gate or the guarded generation step. *)
Lemma main_parsed :
  main w =
  after (reads ++ diagnostics w)
    (if truthy (toAddReport w) || truthy (toModifyReport w)
     then process_exit 1
     else guarded_generation w frontendStrings).
Proof.
  unfold main, guarded_generation, await_parseLocalizableResourceMaps,
    diagnostics, call_getAndReportResourcesToAdd,
    call_getAndReportIDSKeysToModify, call_getAndReportResourcesToRemove.
  rewrite parsed.
  cbn [bind emit ret try_catch throw app].
  fold (toAddReport w) (toModifyReport w) (toRemoveReport w).
  destruct (generateDevToolsLocalizedStrings w
              (parseArguments (argv (process w))) frontendStrings)
    as [tg [[]|e|n]];
  destruct (negb (initialError (toAddReport w) (toModifyReport w)
                     (toRemoveReport w) =? "")%string);
    destruct (truthy (toAddReport w) || truthy (toModifyReport w));
    reflexivity.
Qed.

(** C1. In a run whose parse step succeeded, the gate blocks (exit status 1
    with the generation step never called) exactly when the toAdd or the
    toModify report is non-empty; when both are empty the generation step is
    called, whatever the toRemove report holds. *)
Theorem gate_blocks_iff_add_or_modify :
  (gate_blocks (main w) <->
   report_nonempty (toAddReport w) \/ report_nonempty (toModifyReport w)) /\
  (~ report_nonempty (toAddReport w) ->
   ~ report_nonempty (toModifyReport w) ->
   ~ gate_blocks (main w) /\ generation_reached (trace (main w))).
Proof.
  assert (Hproceed : truthy (toAddReport w) || truthy (toModifyReport w) = false ->
                     generation_reached (trace (main w))).
  { intros Hor. rewrite main_parsed, Hor.
    unfold after. cbn [trace fst].
    destruct (guarded_generation_reached w frontendStrings) as (a & f & Hin).
    exists a, f. apply in_or_app. now right. }
  split; [split|].
  - intros [_ Hnot].
    destruct (truthy (toAddReport w) || truthy (toModifyReport w)) eqn:Hor.
    + apply orb_true_iff in Hor. now rewrite <- !truthy_nonempty.
    + elim Hnot. now apply Hproceed.
  - intros Hblock.
    assert (Hor : truthy (toAddReport w) || truthy (toModifyReport w) = true)
      by (apply orb_true_iff; now rewrite !truthy_nonempty).
    unfold gate_blocks. rewrite main_parsed, Hor.
    unfold after, process_exit. cbn [trace completion fst snd].
    rewrite app_nil_r. split; [reflexivity|].
    apply reads_diagnostics_no_generation.
  - intros Ha Hm. apply truthy_empty in Ha, Hm.
    assert (Hor : truthy (toAddReport w) || truthy (toModifyReport w) = false)
      by now rewrite Ha, Hm.
    split; [|now apply Hproceed].
    intros [_ Hnot]. apply Hnot. now apply Hproceed.
Qed.

(** C8. In a run whose parse step succeeded: if at least one of the three
    reports is non-empty, one message is printed right after the reports are
    read; every non-empty report occurs in it, and it ends with a line feed
    followed by the one-line pointer to the autofix tool.  If all three are
    empty, nothing is printed before the generation step is called, and the
    only lines the run can print at all are those of the generation failure
    handler.  A non-empty toRemove report with empty toAdd and toModify is
    printed and the generation step is called right after. *)
Theorem diagnostic_lists_nonempty_reports :
  (report_nonempty (toAddReport w) \/ report_nonempty (toModifyReport w) \/
   report_nonempty (toRemoveReport w) ->
   exists body rest,
     trace (main w)
     = (reads ++ Console_log (LogString (body ++ LF ++ selfFixPointer)) :: rest)%list /\
     ~ occurs_in LF selfFixPointer /\
     forall s,
       toAddReport w = VString s \/ toModifyReport w = VString s \/
       toRemoveReport w = VString s ->
       s <> "" -> occurs_in s body) /\
  (~ report_nonempty (toAddReport w) -> ~ report_nonempty (toModifyReport w) ->
   ~ report_nonempty (toRemoveReport w) ->
   (exists args rest,
      trace (main w)
      = (reads ++ Call_generateDevToolsLocalizedStrings args frontendStrings
               :: rest)%list) /\
   forall x, In (Console_log x) (trace (main w)) -> generation_failure_line x) /\
  (report_nonempty (toRemoveReport w) ->
   ~ report_nonempty (toAddReport w) -> ~ report_nonempty (toModifyReport w) ->
   exists s args rest,
     toRemoveReport w = VString s /\
     trace (main w)
     = (reads ++ Console_log (LogString (s ++ LF ++ LF ++ selfFixPointer))
              :: Call_generateDevToolsLocalizedStrings args frontendStrings
              :: rest)%list).
Proof.
  rewrite main_parsed.
  unfold after. cbn [trace fst].
  assert (Hgen : exists rest,
            trace (guarded_generation w frontendStrings)
            = Call_generateDevToolsLocalizedStrings
                (parseArguments (argv (process w))) frontendStrings :: rest).
  { destruct (guarded_generation_cases w frontendStrings)
      as [[_ ->]|(root & header & cc & _ & [(_ & _ & ->)|(e & _ & ->)])];
      cbn [trace fst]; eauto. }
  destruct Hgen as (grest & Hgen).
  split; [|split].
  - intros Hsome.
    assert (Ht : truthy (toAddReport w) || truthy (toModifyReport w)
                 || truthy (toRemoveReport w) = true).
    { rewrite !orb_true_iff, !truthy_nonempty. tauto. }
    unfold diagnostics. cbv zeta. rewrite (initialError_nonempty _ _ _ Ht).
    cbn [negb].
    eexists. eexists. split; [|split].
    + rewrite <- app_assoc. cbn [app]. unfold autofixHint.
      fold selfFixPointer. reflexivity.
    + apply selfFixPointer_one_line.
    + intros s Hs Hne. now apply initialError_lists_reports.
  - intros Ha Hm Hr. apply truthy_empty in Ha, Hm, Hr.
    unfold diagnostics. cbv zeta.
    rewrite (initialError_empty _ _ _ Ha Hm Hr), Ha, Hm.
    cbn [String.eqb negb orb app]. rewrite app_nil_r. split.
    + rewrite Hgen. eauto.
    + intros x Hin. apply in_app_or in Hin as [Hin|Hin].
      * exfalso. unfold reads in Hin. no_such_event Hin.
      * now apply guarded_generation_logs in Hin.
  - intros (s & Hs & Hne) Ha Hm. apply truthy_empty in Ha, Hm.
    assert (Ht : truthy (toAddReport w) || truthy (toModifyReport w)
                 || truthy (toRemoveReport w) = true).
    { rewrite Ha, Hm, Hs. simpl. now destruct (String.eqb_spec s ""). }
    unfold diagnostics. cbv zeta. rewrite (initialError_nonempty _ _ _ Ht).
    rewrite Ha, Hm. cbn [negb orb]. rewrite Hgen.
    exists s, (parseArguments (argv (process w))), grest.
    split; [assumption|].
    rewrite <- app_assoc. cbn [app]. do 3 f_equal.
    unfold initialError. rewrite Ha, Hm, Hs.
    assert (Hts : truthy (VString s) = true)
      by (simpl; now destruct (String.eqb_spec s "")).
    rewrite Hts. cbn [Value_toString append]. unfold autofixHint.
    fold selfFixPointer. now rewrite !append_assoc.
Qed.

End ParsedRun.

(** The gate on a run whose only non-empty report is toRemove: it does not
    block and the generation step is called. *)
Lemma gate_blocks_iff_add_or_modify_witness :
  ~ gate_blocks (main staleWorld) /\
  generation_reached (trace (main staleWorld)).
Proof.
  apply (gate_blocks_iff_add_or_modify staleWorld exampleStrings eq_refl);
    exact undefined_report_empty.
Defined.

(** The diagnostic of the same run: the toRemove report, then the pointer. *)
Lemma diagnostic_lists_nonempty_reports_witness :
  exists s args rest,
    toRemoveReport staleWorld = VString s /\
    trace (main staleWorld)
    = (reads ++ Console_log (LogString (s ++ LF ++ LF ++ selfFixPointer))
             :: Call_generateDevToolsLocalizedStrings args exampleStrings
             :: rest)%list.
Proof.
  apply (diagnostic_lists_nonempty_reports staleWorld exampleStrings eq_refl).
  - exists "The message IDS_DEVTOOLS_OLD should be removed.".
    split; [reflexivity|discriminate].
  - exact undefined_report_empty.
  - exact undefined_report_empty.
Defined.

(* ================================================================== *)
(** * Runs that stop before the generation step *)

(** The run when the parser throws (lines 43-48). *)
Lemma main_parse_failed (w : World) (e : Exn) :
  parseLocalizableResourceMaps (checkLocalizedStrings w) = inl e ->
  main w = ([Call_parseLocalizableResourceMaps; Console_log (LogValue e)],
            Exited 1%Z).
Proof.
  intros H. unfold main, await_parseLocalizableResourceMaps. rewrite H.
  reflexivity.
Qed.

(** C6. When [parseLocalizableResourceMaps] throws, the run logs the error
    and exits with status 1 at once: no diff report is read, the generation
    step is not called and no file is written. *)
Theorem parse_failure_aborts (w : World) (e : Exn) :
  parseLocalizableResourceMaps (checkLocalizedStrings w) = inl e ->
  main w = ([Call_parseLocalizableResourceMaps; Console_log (LogValue e)],
            Exited 1%Z) /\
  completion (main w) = Exited 1%Z /\ (1 <> 0)%Z /\
  ~ report_read (trace (main w)) /\
  ~ generation_reached (trace (main w)) /\
  writes (trace (main w)) = [].
Proof.
  intros H. rewrite (main_parse_failed w e H). cbn [trace completion fst snd].
  repeat split; try reflexivity; try lia.
  - intros [Hin|[Hin|Hin]]; no_such_event Hin.
  - intros (args & frontendStrings & Hin). no_such_event Hin.
Qed.

(** The whole run when the parser throws. *)
Lemma parse_failure_aborts_witness :
  main unparsedWorld
  = ([Call_parseLocalizableResourceMaps;
      Console_log (LogValue (HostError "cannot read the GRD file"))],
     Exited 1%Z).
Proof.
  apply (parse_failure_aborts unparsedWorld
           (HostError "cannot read the GRD file") eq_refl).
Defined.

(** A truthy toAdd or toModify report ends every run before generation. *)
Lemma main_blocked (w : World) :
  truthy (toAddReport w) || truthy (toModifyReport w) = true ->
  completion (main w) = Exited 1%Z /\
  ~ generation_reached (trace (main w)) /\
  writes (trace (main w)) = [].
Proof.
  intros Hor.
  destruct (parseLocalizableResourceMaps (checkLocalizedStrings w))
    as [e|frontendStrings] eqn:Hparse.
  - rewrite (main_parse_failed w e Hparse). cbn [trace completion fst snd].
    repeat split.
    intros (args & frontendStrings & Hin). no_such_event Hin.
  - rewrite (main_parsed w frontendStrings Hparse), Hor.
    unfold after, process_exit. cbn [trace completion fst snd].
    rewrite app_nil_r. split; [reflexivity|]. split.
    + apply reads_diagnostics_no_generation.
    + apply reads_diagnostics_no_write.
Qed.

(** C2. Whenever the toAdd or the toModify report is non-empty, the run
    ends with exit status 1, the generation step is never called and no file
    is written. *)
Theorem blocking_diffs_write_nothing (w : World) :
  report_nonempty (toAddReport w) \/ report_nonempty (toModifyReport w) ->
  completion (main w) = Exited 1%Z /\
  ~ generation_reached (trace (main w)) /\
  writes (trace (main w)) = [].
Proof.
  intros Hblock. apply main_blocked.
  apply orb_true_iff. now rewrite !truthy_nonempty.
Qed.

(** A run with a string missing from the catalog writes nothing. *)
Lemma blocking_diffs_write_nothing_witness :
  completion (main missingWorld) = Exited 1%Z /\
  ~ generation_reached (trace (main missingWorld)) /\
  writes (trace (main missingWorld)) = [].
Proof.
  apply (blocking_diffs_write_nothing missingWorld).
  left. exists "The string Hello needs to be added.".
  split; [reflexivity|discriminate].
Defined.

(* ================================================================== *)
(** * The generated artifacts *)

(** The [forEach] loop appends one entry per item, in iteration order. *)
Lemma forEach_appends (w : World) (frontendStrings : FrontendStrings)
    (acc : string) :
  Map_forEach frontendStrings
    (fun mappingsStr frontendString idsKey =>
       mappingsStr ++
       ("  {" ++ DQUOTE
        ++ sanitizeStringIntoCppFormat (localizationUtils w)
             (FrontendString.string frontendString)
        ++ DQUOTE ++ ", " ++ idsKey ++ "}," ++ LF))
    acc
  = acc ++ concat_all (map (definitionEntry w) frontendStrings).
Proof.
  unfold Map_forEach. revert acc.
  induction frontendStrings as [|item rest IH]; intros acc;
    cbn [fold_left map concat_all fold_right].
  - now rewrite append_nil_r.
  - rewrite IH. fold (definitionEntry w item). apply append_assoc.
Qed.

Lemma mappingsStr_entries (w : World) (frontendStrings : FrontendStrings) :
  mappingsStr w frontendStrings
  = concat_all (map (definitionEntry w) frontendStrings).
Proof. unfold mappingsStr. now rewrite forEach_appends. Qed.

Lemma outputCCFileContent_entries (w : World) (root header cc : string)
    (frontendStrings : FrontendStrings) :
  outputCCFileContent w
    (new_Arguments (VString root) (VString header) (VString cc))
    frontendStrings
  = definitionPrologue header
    ++ concat_all (map (definitionEntry w) frontendStrings)
    ++ definitionEpilogue.
Proof.
  unfold outputCCFileContent, definitionPrologue, definitionEpilogue.
  rewrite mappingsStr_entries.
  cbn [outputHeaderFilePath Value_toString].
  repeat (rewrite !append_assoc; f_equal).
Qed.

Lemma generate_writes (w : World) (root header cc : string)
    (frontendStrings : FrontendStrings) :
  writes (trace (generateDevToolsLocalizedStrings w
            (new_Arguments (VString root) (VString header) (VString cc))
            frontendStrings))
  = [headerWrite w root header frontendStrings;
     ccWrite w root header cc frontendStrings].
Proof.
  rewrite generate_with_strings. unfold after. cbn [trace fst].
  rewrite writes_app.
  destruct (Promise_all_cases
    [write_promise w (headerWrite w root header frontendStrings);
     write_promise w (ccWrite w root header cc frontendStrings)])
    as [[_ ->]|(p & e & _ & _ & ->)]; reflexivity.
Qed.

(** C3. The definition artifact (the second file written) is the fixed
    prologue, then one entry per item of [frontendStrings] in iteration
    order, then the fixed epilogue; the entry of an item is its sanitized
    text in double quotes followed by its IDS key.  The same holds for every
    reordering of the map, whose entries are the same ones in the new
    order. *)
Theorem definition_entries_in_order (w : World) (root header cc : string)
    (frontendStrings : FrontendStrings) :
  let entries := map (definitionEntry w) frontendStrings in
  writes (trace (generateDevToolsLocalizedStrings w
            (new_Arguments (VString root) (VString header) (VString cc))
            frontendStrings))
  = [headerWrite w root header frontendStrings;
     (join (path w) root cc,
      definitionPrologue header ++ concat_all entries ++ definitionEpilogue)] /\
  length entries = Map_size frontendStrings /\
  (forall i item,
      nth_error frontendStrings i = Some item ->
      nth_error entries i = Some (definitionEntry w item)) /\
  (forall reordered,
      Permutation frontendStrings reordered ->
      outputCCFileContent w
        (new_Arguments (VString root) (VString header) (VString cc)) reordered
      = definitionPrologue header
        ++ concat_all (map (definitionEntry w) reordered)
        ++ definitionEpilogue /\
      Permutation entries (map (definitionEntry w) reordered)).
Proof.
  intros entries. repeat split.
  - rewrite generate_writes. unfold ccWrite.
    now rewrite outputCCFileContent_entries.
  - apply length_map.
  - intros i item H. unfold entries. now apply map_nth_error.
  - apply outputCCFileContent_entries.
  - now apply Permutation_map.
Qed.

(** The theorem on the example map and its reversal: the definition
    artifact of the reversed map lists the same entries in reversed order. *)
Lemma definition_entries_in_order_witness :
  outputCCFileContent staleWorld
    (new_Arguments (VString "gen") (VString "map.h") (VString "map.cc"))
    (rev exampleStrings)
  = definitionPrologue "map.h"
    ++ concat_all (map (definitionEntry staleWorld) (rev exampleStrings))
    ++ definitionEpilogue /\
  Permutation (map (definitionEntry staleWorld) exampleStrings)
              (map (definitionEntry staleWorld) (rev exampleStrings)).
Proof.
  destruct (definition_entries_in_order staleWorld "gen" "map.h" "map.cc"
              exampleStrings) as (_ & _ & _ & Hreordered).
  apply Hreordered. apply Permutation_rev.
Defined.

Lemma decimal_value_Number_toString (n : nat) :
  decimal_value (Number_toString n) = Some n.
Proof.
  unfold decimal_value, Number_toString.
  pose proof (DecimalNat.Unsigned.of_to n) as Hn.
  destruct (Nat.to_uint n) as [| | | | | | | | | |] eqn:E;
    try (rewrite NilZero.usu by discriminate; simpl option_map; now rewrite Hn).
  simpl in Hn. subst n. reflexivity.
Qed.

Lemma readDigits_digit (c : ascii) (k acc : nat) (rest : string) :
  digitValue c = Some k -> (k < 10)%nat ->
  readDigits 10 acc (String c rest) = readDigits 10 (10 * acc + k) rest.
Proof.
  intros Hc Hk. cbn [readDigits]. rewrite Hc.
  now destruct (Nat.ltb_spec k 10) as [_|Hge]; [|lia].
Qed.

(** Reading the digits of a decimal numeral continues the accumulator as
    [Nat.of_uint_acc] does. *)
Lemma readDigits_string_of_uint (d : Decimal.uint) :
  forall acc,
    readDigits 10 acc (NilEmpty.string_of_uint d)
    = Some (Nat.of_uint_acc d acc).
Proof.
  induction d as [|d IH|d IH|d IH|d IH|d IH|d IH|d IH|d IH|d IH|d IH];
    intros acc; cbn [NilEmpty.string_of_uint Nat.of_uint_acc];
    [reflexivity|..];
    match goal with
    | |- readDigits 10 acc (String ?c _) = _ =>
        let v := eval vm_compute in (digitValue c) in
        match v with
        | Some ?k =>
            rewrite (readDigits_digit c k) by first [reflexivity | lia]
        end
    end;
    rewrite IH, Nat.tail_mul_spec; do 2 f_equal; lia.
Qed.

(** The numeral printed for a [Map] size reads back, as a C++ integer
    literal, as that size: it has no leading zero that would make it
    octal. *)
Lemma cppIntegerLiteral_Number_toString (n : nat) :
  cppIntegerLiteral (Number_toString n) = Some n.
Proof.
  unfold Number_toString.
  pose proof (DecimalNat.Unsigned.of_to n) as Hn.
  pose proof (DecimalNat.Unsigned.to_of (Nat.to_uint n)) as Hnorm.
  rewrite Hn in Hnorm.
  destruct (Nat.to_uint n) as [|d|d|d|d|d|d|d|d|d|d] eqn:E;
    try (cbn [NilZero.string_of_uint NilEmpty.string_of_uint
              cppIntegerLiteral];
         change (Ascii.eqb _ "0") with false; cbv iota;
         match goal with
         | |- context [digitValue ?c] =>
             let v := eval vm_compute in (digitValue c) in
             change (digitValue c) with v; cbv iota
         end;
         rewrite readDigits_string_of_uint; rewrite <- Hn;
         reflexivity).
  - simpl in Hn. subst n. reflexivity.
  - rewrite DecimalFacts.unorm_D0 in Hnorm. unfold Decimal.unorm in Hnorm.
    destruct (Decimal.nzhead d) eqn:Hd;
      try (exfalso; revert Hd; rewrite <- Hnorm;
           apply DecimalFacts.nzhead_nonzero).
    injection Hnorm as Hnil. subst d. simpl in Hn. subst n. reflexivity.
Qed.

(** C4. The declaration artifact (the first file written) is, character by
    character, the do-not-edit banner, the include guard, a [constexpr]
    whose literal reads as a C++ integer literal of value the number of
    entries of [frontendStrings], and the [extern] declaration of the array
    sized by that constant. *)
Theorem declaration_artifact_content (w : World) (root header cc : string)
    (frontendStrings : FrontendStrings) :
  exists sizeLiteral,
    hd_error (writes (trace (generateDevToolsLocalizedStrings w
                (new_Arguments (VString root) (VString header) (VString cc))
                frontendStrings)))
    = Some (join (path w) root header, declarationFile sizeLiteral) /\
    outputHeaderFileContent frontendStrings = declarationFile sizeLiteral /\
    cppIntegerLiteral sizeLiteral = Some (length frontendStrings).
Proof.
  exists (Number_toString (Map_size frontendStrings)).
  assert (H : outputHeaderFileContent frontendStrings
              = declarationFile (Number_toString (Map_size frontendStrings)))
    by reflexivity.
  rewrite generate_writes. unfold headerWrite. cbn [hd_error].
  rewrite H. repeat split. apply cppIntegerLiteral_Number_toString.
Qed.

(* ================================================================== *)
(** * Failing writes and repeated runs *)

(** [main] handles every exception it can meet: the promise it returns is
    never rejected. *)
Lemma main_never_throws (w : World) (e : Exn) :
  completion (main w) <> Thrown e.
Proof.
  destruct (parseLocalizableResourceMaps (checkLocalizedStrings w))
    as [e'|frontendStrings] eqn:Hparse.
  - now rewrite (main_parse_failed w e' Hparse).
  - rewrite (main_parsed w frontendStrings Hparse).
    unfold after. cbn [completion snd].
    destruct (truthy (toAddReport w) || truthy (toModifyReport w));
      [discriminate|].
    destruct (guarded_generation_cases w frontendStrings)
      as [[_ ->]|(root & header & cc & _ & [(_ & _ & ->)|(e0 & _ & ->)])];
      discriminate.
Qed.

(** Every way a run can end, with the files it wrote. *)
Lemma main_outcomes (w : World) :
  (writes (trace (main w)) = [] /\ completion (main w) = Exited 1%Z) \/
  (exists root header cc frontendStrings,
      let hw := headerWrite w root header frontendStrings in
      let cw := ccWrite w root header cc frontendStrings in
      parseLocalizableResourceMaps (checkLocalizedStrings w)
      = inr frontendStrings /\
      writes (trace (main w)) = [hw; cw] /\
      ((rejection (write_promise w hw) = None /\
        rejection (write_promise w cw) = None /\
        completion (main w) = Normal tt) \/
       (exists e prefix,
           (rejection (write_promise w hw) = Some e \/
            rejection (write_promise w cw) = Some e) /\
           trace (main w) = (prefix ++ generationFailureLog e)%list /\
           completion (main w) = Exited 1%Z))).
Proof.
  destruct (parseLocalizableResourceMaps (checkLocalizedStrings w))
    as [e'|frontendStrings] eqn:Hparse.
  - left. now rewrite (main_parse_failed w e' Hparse).
  - destruct (truthy (toAddReport w) || truthy (toModifyReport w)) eqn:Hor.
    + left. destruct (main_blocked w Hor) as (Hc & _ & Hw). auto.
    + rewrite (main_parsed w frontendStrings Hparse), Hor.
      unfold after. cbn [trace completion fst snd].
      rewrite writes_app, reads_diagnostics_no_write. cbn [app].
      destruct (guarded_generation_cases w frontendStrings)
        as [[_ ->]|(root & header & cc & _ & [(Hh & Hc & ->)|(e & He & ->)])];
        cbn [fst snd].
      * left. split; reflexivity.
      * right. exists root, header, cc, frontendStrings. cbv zeta.
        split; [reflexivity|].
        unfold write_event, headerWrite, ccWrite. cbn [writes fst snd].
        split; [reflexivity|]. left. auto.
      * right. exists root, header, cc, frontendStrings. cbv zeta.
        split; [reflexivity|].
        unfold write_event, headerWrite, ccWrite.
        cbn [writes fst snd generationFailureLog].
        split; [reflexivity|]. right.
        exists e.
        exists (reads ++ diagnostics w ++
                [Call_generateDevToolsLocalizedStrings
                   (parseArguments (argv (process w))) frontendStrings;
                 write_event (headerWrite w root header frontendStrings);
                 write_event (ccWrite w root header cc frontendStrings)])%list.
        split; [assumption|]. split; [|reflexivity].
        now rewrite <- !app_assoc.
Qed.

(** C5. If a file written during the run fails to be written, the run
    prints the generation failure (its last two lines: the headline and the
    stack of a rejected write) and exits with status 1.  A run that ends
    successfully has issued exactly the two writes, declaration then
    definition, and both were fulfilled. *)
Theorem failed_write_fails_run (w : World) :
  ((exists p content e,
       In (p, content) (writes (trace (main w))) /\
       rejection (writeFile (fs w) p content) = Some e) ->
   completion (main w) = Exited 1%Z /\ (1 <> 0)%Z /\
   exists e prefix q content',
     trace (main w) = (prefix ++ generationFailureLog e)%list /\
     In (q, content') (writes (trace (main w))) /\
     rejection (writeFile (fs w) q content') = Some e) /\
  (completion (main w) = Normal tt ->
   exists root header cc frontendStrings,
     writes (trace (main w))
     = [headerWrite w root header frontendStrings;
        ccWrite w root header cc frontendStrings] /\
     Forall (fun pc => rejection (writeFile (fs w) (fst pc) (snd pc)) = None)
            (writes (trace (main w)))).
Proof.
  destruct (main_outcomes w)
    as [[Hw Hc]|(root & header & cc & frontendStrings & _ & Hw &
                 [(Hh & Hcc & Hc)|(e & prefix & He & Ht & Hc)])];
    rewrite Hw, Hc.
  - split; [intros (p & c & e & [] & _)|discriminate].
  - split.
    + intros (p & c & e & Hin & Hrej). exfalso.
      unfold write_promise in Hh, Hcc.
      destruct Hin as [Heq|[Heq|[]]]; rewrite Heq in *; cbn [fst snd] in *;
        congruence.
    + intros _. exists root, header, cc, frontendStrings.
      split; [reflexivity|]. repeat constructor; assumption.
  - split; [|discriminate].
    intros _. split; [reflexivity|]. split; [lia|].
    unfold write_promise in He.
    destruct He as [He|He].
    + exists e, prefix, (fst (headerWrite w root header frontendStrings)),
        (snd (headerWrite w root header frontendStrings)).
      repeat split; [assumption|now left|assumption].
    + exists e, prefix, (fst (ccWrite w root header cc frontendStrings)),
        (snd (ccWrite w root header cc frontendStrings)).
      repeat split; [assumption|right; now left|assumption].
Qed.

(** The theorem on a file system that rejects every write. *)
Lemma failed_write_fails_run_witness :
  completion (main diskFullWorld) = Exited 1%Z /\ (1 <> 0)%Z /\
  exists e prefix q content',
    trace (main diskFullWorld) = (prefix ++ generationFailureLog e)%list /\
    In (q, content') (writes (trace (main diskFullWorld))) /\
    rejection (writeFile (fs diskFullWorld) q content') = Some e.
Proof.
  destruct (failed_write_fails_run diskFullWorld) as [Hfails _].
  apply Hfails.
  exists "gen/devtools_ui_strings_map.h",
    (outputHeaderFileContent exampleStrings), (HostError "ENOSPC").
  split; [|reflexivity].
  vm_compute. left. reflexivity.
Defined.

Lemma outputCCFileContent_same_utils (w1 w2 : World) (args : Arguments)
    (frontendStrings : FrontendStrings) :
  localizationUtils w1 = localizationUtils w2 ->
  outputCCFileContent w1 args frontendStrings
  = outputCCFileContent w2 args frontendStrings.
Proof.
  intros H. unfold outputCCFileContent, mappingsStr. now rewrite H.
Qed.

(** C7. The contents the generation step writes are a function of its
    arguments and of [frontendStrings] alone: two runs of the same script
    (the same sanitizer) on the same arguments and the same map write the
    same declaration and definition contents, whatever the file system, the
    reports or the outcome of the writes are; with the same [path.join] the
    paths agree as well. *)
Theorem generation_deterministic (w1 w2 : World) (args : Arguments)
    (frontendStrings : FrontendStrings) :
  localizationUtils w1 = localizationUtils w2 ->
  contents_written
    (trace (generateDevToolsLocalizedStrings w1 args frontendStrings))
  = contents_written
      (trace (generateDevToolsLocalizedStrings w2 args frontendStrings)) /\
  (path w1 = path w2 ->
   writes (trace (generateDevToolsLocalizedStrings w1 args frontendStrings))
   = writes (trace (generateDevToolsLocalizedStrings w2 args frontendStrings))).
Proof.
  intros Hutils. unfold contents_written.
  destruct (arguments_cases args) as [(root & header & cc & ->)|Hundef].
  - rewrite !generate_writes. unfold headerWrite, ccWrite.
    rewrite (outputCCFileContent_same_utils w1 w2 _ _ Hutils).
    split; [reflexivity|]. now intros ->.
  - rewrite !generate_without_strings by assumption. split; reflexivity.
Qed.

(** Two runs on the example command line and map, one with a working file
    system and a stale entry, one with a full disk: the same contents. *)
Lemma generation_deterministic_witness :
  contents_written
    (trace (generateDevToolsLocalizedStrings staleWorld
              (parseArguments exampleArgv) exampleStrings))
  = contents_written
      (trace (generateDevToolsLocalizedStrings diskFullWorld
                (parseArguments exampleArgv) exampleStrings)).
Proof.
  apply (generation_deterministic staleWorld diskFullWorld
           (parseArguments exampleArgv) exampleStrings eq_refl).
Defined.

(* ================================================================== *)
(** * Sanitizing a string for a C++ literal *)

(** The escape of one character reads back as that character. *)
Lemma sChars_escapeChar (c : ascii) (tail : string) :
  CppLiteral.sChars CppLiteral.Plain (localization_utils.escapeChar c ++ tail)
  = CppLiteral.cons_char (Some c) (CppLiteral.sChars CppLiteral.Plain tail).
Proof.
  destruct c as [[] [] [] [] [] [] [] []]; reflexivity.
Qed.

Lemma sChars_sanitized (s : string) :
  CppLiteral.sChars CppLiteral.Plain
    (localization_utils.sanitizeStringIntoCppFormat s ++ DQUOTE)
  = Some s.
Proof.
  induction s as [|c s IH]; [reflexivity|].
  cbn [localization_utils.sanitizeStringIntoCppFormat].
  rewrite append_assoc, sChars_escapeChar, IH. reflexivity.
Qed.

(** C9. Reading the literal made of a double quote, the sanitized string and
    a double quote by the rules for C++ string literals gives back the
    string, for every string. *)
Theorem sanitize_round_trip (s : string) :
  CppLiteral.stringLiteral
    (DQUOTE ++ localization_utils.sanitizeStringIntoCppFormat s ++ DQUOTE)
  = Some s.
Proof.
  unfold CppLiteral.stringLiteral, DQUOTE at 1.
  cbn [append ascii_of_nat]. change (ascii_of_nat 34) with "034"%char.
  cbn [Ascii.eqb Bool.eqb]. apply sChars_sanitized.
Qed.

(* ================================================================== *)
(** * Example runs *)

(** Scenario 5 of the specification. *)
Example sanitize_scenario_5 :
  localization_utils.sanitizeStringIntoCppFormat
    ("He said " ++ DQUOTE ++ "hi" ++ DQUOTE ++ "\")
  = "He said \" ++ DQUOTE ++ "hi\" ++ DQUOTE ++ "\\".
Proof. reflexivity. Qed.

(** Scenario 4: stale entries are reported, both files are written and the
    run ends successfully. *)
Example stale_run_succeeds :
  completion (main staleWorld) = Normal tt /\
  length (writes (trace (main staleWorld))) = 2.
Proof. split; reflexivity. Qed.

(** A rejected write ends the run with status 1. *)
Example disk_full_run_fails :
  completion (main diskFullWorld) = Exited 1%Z.
Proof. reflexivity. Qed.


(* ================================================================== *)
(** * Further properties of parseArguments *)

Lemma flagsLine_cons (f v : string) (pairs : list (string * string)) :
  flagsLine ((f, v) :: pairs) = f :: v :: flagsLine pairs.
Proof. reflexivity. Qed.

(** On a line of flag/value pairs whose values are not the flag itself, the
    element read for [flag] is the value of the first pair carrying it. *)
Lemma field_looks_up (flag : string) (pairs : list (string * string)) :
  forall prefix : list string,
  ~ In flag prefix ->
  (forall fv, In fv pairs -> snd fv <> flag) ->
  Array_get (prefix ++ flagsLine pairs)
            (Array_indexOf (prefix ++ flagsLine pairs) flag + 1)
  = match firstValue flag pairs with
    | Some v => VString v
    | None => first_element (prefix ++ flagsLine pairs)
    end.
Proof.
  induction pairs as [|[f v] pairs IH]; intros prefix Hpre Hval.
  - cbn [firstValue flagsLine flat_map]. rewrite app_nil_r.
    now apply field_without_flag.
  - cbn [firstValue fst snd]. rewrite flagsLine_cons.
    destruct (String.eqb_spec f flag) as [->|Hf].
    + now apply (field_after_flag flag prefix (v :: flagsLine pairs)).
    + replace (prefix ++ f :: v :: flagsLine pairs)%list
        with ((prefix ++ [f; v]) ++ flagsLine pairs)%list
        by (rewrite <- app_assoc; reflexivity).
      apply IH.
      * intros Hin. apply in_app_or in Hin as [Hin|[Hin|[Hin|[]]]].
        -- contradiction.
        -- contradiction.
        -- apply (Hval (f, v)); [now left|exact Hin].
      * intros fv Hin. apply Hval. now right.
Qed.

Lemma in_theFlags :
  In "--root_gen_dir" theFlags /\ In "--output_header" theFlags /\
  In "--output_cc" theFlags.
Proof. unfold theFlags. simpl. repeat split; auto. Qed.

(** X1. On a command line made of a prefix without flags followed by
    flag/value pairs whose values are none of the three flags,
    [parseArguments] is a lookup: each field is the value of the first pair
    that carries its flag, in whatever order the pairs come, and element 0 of
    the line when no pair carries it. *)
Theorem parseArguments_looks_up_flags (prefix : list string)
    (pairs : list (string * string)) :
  (forall flag, In flag theFlags -> ~ In flag prefix) ->
  (forall flag fv, In flag theFlags -> In fv pairs -> snd fv <> flag) ->
  parseArguments (prefix ++ flagsLine pairs)
  = new_Arguments
      (match firstValue "--root_gen_dir" pairs with
       | Some v => VString v
       | None => first_element (prefix ++ flagsLine pairs)
       end)
      (match firstValue "--output_header" pairs with
       | Some v => VString v
       | None => first_element (prefix ++ flagsLine pairs)
       end)
      (match firstValue "--output_cc" pairs with
       | Some v => VString v
       | None => first_element (prefix ++ flagsLine pairs)
       end).
Proof.
  intros Hpre Hval. destruct in_theFlags as (Hr & Hh & Hc).
  unfold parseArguments.
  rewrite !field_looks_up by auto. reflexivity.
Qed.

(** The lookup on a line that gives the pairs in another order than the
    fields. *)
Lemma parseArguments_looks_up_flags_witness :
  parseArguments
    (["node"; "generate_devtools_ui_strings.js"]
     ++ flagsLine [("--output_cc", "map.cc"); ("--root_gen_dir", "gen");
                   ("--output_header", "map.h")])
  = new_Arguments (VString "gen") (VString "map.h") (VString "map.cc").
Proof.
  apply (parseArguments_looks_up_flags
           ["node"; "generate_devtools_ui_strings.js"]
           [("--output_cc", "map.cc"); ("--root_gen_dir", "gen");
            ("--output_header", "map.h")]).
  - intros flag [<-|[<-|[<-|[]]]] [H|[H|[]]]; discriminate H.
  - intros flag fv [<-|[<-|[<-|[]]]] [<-|[<-|[<-|[]]]]; discriminate.
Defined.

Lemma first_occurrence_split (x : string) (l : list string) :
  In x l ->
  exists before after, l = (before ++ x :: after)%list /\ ~ In x before.
Proof.
  induction l as [|y l IH]; intros Hin; [destruct Hin|].
  destruct (string_dec y x) as [->|Hne].
  - exists [], l. split; [reflexivity|intros []].
  - destruct Hin as [Heq|Hin]; [contradiction|].
    destruct (IH Hin) as (before & after & -> & Hnot).
    exists (y :: before), after. split; [reflexivity|].
    intros [Heq|Hin']; [contradiction|now apply Hnot].
Qed.

(** The element read for [flag] is [undefined] exactly when the line is
    empty or the first occurrence of [flag] is its last element. *)
Lemma field_undefined_iff (flag : string) (args : list string) :
  Array_get args (Array_indexOf args flag + 1) = VUndefined <->
  args = [] \/
  exists before, args = (before ++ [flag])%list /\ ~ In flag before.
Proof.
  split.
  - intros Hundef.
    destruct (in_dec string_dec flag args) as [Hin|Hnot].
    + destruct (first_occurrence_split flag args Hin)
        as (before & after & -> & Hbefore).
      rewrite field_after_flag in Hundef by assumption.
      destruct after as [|v after]; [|discriminate Hundef].
      right. now exists before.
    + rewrite field_without_flag in Hundef by assumption.
      destruct args; [now left|discriminate Hundef].
  - intros [->|(before & -> & Hbefore)]; [reflexivity|].
    now rewrite field_after_flag.
Qed.

(** X2. A field of the parsed arguments is [undefined] exactly when the
    command line is empty or the first occurrence of the field's flag is the
    last element of the line; in every other case the field is a string. *)
Theorem parseArguments_undefined_iff (args : list string) :
  (rootGenDir (parseArguments args) = VUndefined <->
   args = [] \/
   exists before,
     args = (before ++ ["--root_gen_dir"])%list /\
     ~ In "--root_gen_dir" before) /\
  (outputHeaderFilePath (parseArguments args) = VUndefined <->
   args = [] \/
   exists before,
     args = (before ++ ["--output_header"])%list /\
     ~ In "--output_header" before) /\
  (outputCCFilePath (parseArguments args) = VUndefined <->
   args = [] \/
   exists before,
     args = (before ++ ["--output_cc"])%list /\
     ~ In "--output_cc" before).
Proof.
  unfold parseArguments.
  cbn [rootGenDir outputHeaderFilePath outputCCFilePath].
  repeat split; apply field_undefined_iff.
Qed.

Lemma value_missing_undefined (args : list string) :
  value_missing args -> some_argument_undefined (parseArguments args).
Proof.
  unfold value_missing, some_argument_undefined, parseArguments.
  cbn [rootGenDir outputHeaderFilePath outputCCFilePath].
  intros [->|(flag & before & Hflag & -> & Hbefore)].
  - left. reflexivity.
  - destruct Hflag as [<-|[<-|[<-|[]]]].
    + left. now rewrite field_after_flag.
    + right. left. now rewrite field_after_flag.
    + right. right. now rewrite field_after_flag.
Qed.

(* ================================================================== *)
(** * Further properties of main *)

Lemma not_undefined_strings (root header cc : string) :
  ~ some_argument_undefined
      (new_Arguments (VString root) (VString header) (VString cc)).
Proof. intros [H|[H|H]]; discriminate H. Qed.

(** With three string arguments, lines 66-72 issue the two writes, however
    they settle. *)
Lemma guarded_generation_writes (w : World) (frontendStrings : FrontendStrings)
    (root header cc : string) :
  parseArguments (argv (process w))
  = new_Arguments (VString root) (VString header) (VString cc) ->
  writes (trace (guarded_generation w frontendStrings))
  = [headerWrite w root header frontendStrings;
     ccWrite w root header cc frontendStrings].
Proof.
  intros Hargs.
  destruct (guarded_generation_cases w frontendStrings)
    as [[Hundef _]|(root' & header' & cc' & Hargs' &
                    [(_ & _ & ->)|(e & _ & ->)])].
  - rewrite Hargs in Hundef. now apply not_undefined_strings in Hundef.
  - rewrite Hargs in Hargs'. injection Hargs' as <- <- <-. reflexivity.
  - rewrite Hargs in Hargs'. injection Hargs' as <- <- <-. reflexivity.
Qed.

Lemma open_gate (w : World) :
  ~ report_nonempty (toAddReport w) ->
  ~ report_nonempty (toModifyReport w) ->
  truthy (toAddReport w) || truthy (toModifyReport w) = false.
Proof. intros Ha Hm. apply truthy_empty in Ha, Hm. now rewrite Ha, Hm. Qed.

(** X3. [main] ends in one of two ways only: normally (exit status 0) or by
    [process.exit(1)].  It never exits with another status and never lets an
    exception escape. *)
Theorem main_exit_status (w : World) :
  completion (main w) = Normal tt \/ completion (main w) = Exited 1%Z.
Proof.
  destruct (main_outcomes w)
    as [[_ Hc]|(root & header & cc & frontendStrings & _ & _ &
                [(_ & _ & Hc)|(e & prefix & _ & _ & Hc)])]; auto.
Qed.

(** X4. A run ends successfully exactly when the parse step returned a map,
    the toAdd and toModify reports are empty, the three parsed arguments are
    strings, and both writes are fulfilled. *)
Theorem run_succeeds_iff (w : World) :
  completion (main w) = Normal tt <->
  exists frontendStrings root header cc,
    parseLocalizableResourceMaps (checkLocalizedStrings w)
    = inr frontendStrings /\
    ~ report_nonempty (toAddReport w) /\
    ~ report_nonempty (toModifyReport w) /\
    parseArguments (argv (process w))
    = new_Arguments (VString root) (VString header) (VString cc) /\
    rejection (write_promise w (headerWrite w root header frontendStrings))
    = None /\
    rejection (write_promise w (ccWrite w root header cc frontendStrings))
    = None.
Proof.
  split.
  - intros Hc.
    destruct (parseLocalizableResourceMaps (checkLocalizedStrings w))
      as [e|frontendStrings] eqn:Hparse.
    { rewrite (main_parse_failed w e Hparse) in Hc. discriminate Hc. }
    destruct (truthy (toAddReport w) || truthy (toModifyReport w)) eqn:Hor.
    { destruct (main_blocked w Hor) as (Hc' & _). congruence. }
    rewrite (main_parsed w frontendStrings Hparse), Hor in Hc.
    unfold after in Hc. cbn [completion snd] in Hc.
    apply orb_false_iff in Hor as [Ha Hm]. apply truthy_empty in Ha, Hm.
    destruct (guarded_generation_cases w frontendStrings)
      as [[_ Hg]|(root & header & cc & Hargs &
                  [(Hh & Hcc & Hg)|(e & _ & Hg)])];
      rewrite Hg in Hc; try discriminate Hc.
    exists frontendStrings, root, header, cc. auto 7.
  - intros (frontendStrings & root & header & cc & Hparse & Ha & Hm & Hargs
            & Hh & Hcc).
    rewrite (main_parsed w frontendStrings Hparse), (open_gate w Ha Hm).
    unfold after. cbn [completion snd].
    destruct (guarded_generation_cases w frontendStrings)
      as [[Hundef _]|(root' & header' & cc' & Hargs' &
                      [(_ & _ & ->)|(e & He & _)])].
    + rewrite Hargs in Hundef. now apply not_undefined_strings in Hundef.
    + reflexivity.
    + rewrite Hargs in Hargs'. injection Hargs' as <- <- <-.
      destruct He; congruence.
Qed.

(** The run with only a stale entry meets the six conditions. *)
Lemma run_succeeds_iff_witness : completion (main staleWorld) = Normal tt.
Proof.
  apply (run_succeeds_iff staleWorld).
  exists exampleStrings, "gen", "devtools_ui_strings_map.h",
    "devtools_ui_strings_map.cc".
  repeat split; try reflexivity; exact undefined_report_empty.
Defined.

Lemma initialError_reportLines (a m r : Value) :
  initialError a m r = reportLines [a; m; r].
Proof.
  unfold initialError, reportLines. cbn [filter].
  destruct (truthy a), (truthy m), (truthy r);
    cbn [map concat_all fold_right append];
    now rewrite ?append_nil_r.
Qed.

(** X5. When the parse step succeeded and the toAdd or the toModify report
    is non-empty, the whole run is: the parse call, the three report calls
    in the order toAdd, toModify, toRemove, one printed message, exit with
    status 1.  The message is the non-empty reports in that order, each
    followed by a line feed, then an empty line and the autofix pointer. *)
Theorem blocked_run_trace (w : World) (frontendStrings : FrontendStrings) :
  parseLocalizableResourceMaps (checkLocalizedStrings w)
  = inr frontendStrings ->
  report_nonempty (toAddReport w) \/ report_nonempty (toModifyReport w) ->
  main w
  = ((reads ++
      [Console_log
         (LogString
            (reportLines [toAddReport w; toModifyReport w; toRemoveReport w]
             ++ LF ++ selfFixPointer))])%list,
     Exited 1%Z).
Proof.
  intros Hparse Hblock.
  assert (Hor : truthy (toAddReport w) || truthy (toModifyReport w) = true)
    by (apply orb_true_iff; now rewrite !truthy_nonempty).
  rewrite (main_parsed w frontendStrings Hparse), Hor.
  unfold after, process_exit, diagnostics. cbv zeta.
  rewrite initialError_nonempty by now rewrite Hor.
  cbn [negb trace completion fst snd]. rewrite app_nil_r.
  rewrite initialError_reportLines. reflexivity.
Qed.

(** A blocked run with a missing string and no other report. *)
Lemma blocked_run_trace_witness :
  main missingWorld
  = ((reads ++
      [Console_log
         (LogString
            ("The string Hello needs to be added." ++ LF ++ LF
             ++ selfFixPointer))])%list,
     Exited 1%Z).
Proof.
  apply (blocked_run_trace missingWorld exampleStrings eq_refl).
  left. exists "The string Hello needs to be added.".
  split; [reflexivity|discriminate].
Defined.

Lemma guarded_generation_withToRemoveReport (v : Value) (w : World)
    (frontendStrings : FrontendStrings) :
  guarded_generation (withToRemoveReport v w) frontendStrings
  = guarded_generation w frontendStrings.
Proof. reflexivity. Qed.

(** X6. The toRemove report informs and nothing else: replacing it by any
    other value changes neither how the run ends nor which files it writes
    with which contents. *)
Theorem toRemove_report_only_informs (w : World) (v : Value) :
  completion (main (withToRemoveReport v w)) = completion (main w) /\
  writes (trace (main (withToRemoveReport v w))) = writes (trace (main w)).
Proof.
  destruct (parseLocalizableResourceMaps (checkLocalizedStrings w))
    as [e|frontendStrings] eqn:Hparse.
  - rewrite (main_parse_failed (withToRemoveReport v w) e Hparse),
      (main_parse_failed w e Hparse). split; reflexivity.
  - rewrite (main_parsed (withToRemoveReport v w) frontendStrings Hparse),
      (main_parsed w frontendStrings Hparse).
    change (toAddReport (withToRemoveReport v w)) with (toAddReport w).
    change (toModifyReport (withToRemoveReport v w)) with (toModifyReport w).
    rewrite guarded_generation_withToRemoveReport.
    unfold after. cbn [trace completion fst snd].
    split; [reflexivity|].
    rewrite (writes_app (reads ++ diagnostics (withToRemoveReport v w))),
      (writes_app (reads ++ diagnostics w)).
    now rewrite !reads_diagnostics_no_write.
Qed.

Lemma main_undefined_argument (w : World) :
  some_argument_undefined (parseArguments (argv (process w))) ->
  completion (main w) = Exited 1%Z /\ writes (trace (main w)) = [].
Proof.
  intros Hundef.
  destruct (parseLocalizableResourceMaps (checkLocalizedStrings w))
    as [e|frontendStrings] eqn:Hparse.
  { rewrite (main_parse_failed w e Hparse). split; reflexivity. }
  destruct (truthy (toAddReport w) || truthy (toModifyReport w)) eqn:Hor.
  { destruct (main_blocked w Hor) as (Hc & _ & Hw). auto. }
  rewrite (main_parsed w frontendStrings Hparse), Hor.
  unfold after. cbn [trace completion fst snd].
  rewrite writes_app, reads_diagnostics_no_write.
  destruct (guarded_generation_cases w frontendStrings)
    as [[_ ->]|(root & header & cc & Hargs & _)].
  - split; reflexivity.
  - rewrite Hargs in Hundef. now apply not_undefined_strings in Hundef.
Qed.

(** X7. When the command line is empty or ends with the first occurrence of
    one of the three flags, so that a flag has no value, every run exits
    with status 1 and writes no file. *)
Theorem missing_value_writes_nothing (w : World) :
  value_missing (argv (process w)) ->
  completion (main w) = Exited 1%Z /\ writes (trace (main w)) = [].
Proof.
  intros Hmissing. apply main_undefined_argument.
  now apply value_missing_undefined.
Qed.

(** A command line that stops after [--output_cc]. *)
Lemma missing_value_writes_nothing_witness :
  completion (main truncatedWorld) = Exited 1%Z /\
  writes (trace (main truncatedWorld)) = [].
Proof.
  apply (missing_value_writes_nothing truncatedWorld).
  right. exists "--output_cc",
    ["node"; "generate_devtools_ui_strings.js"; "--root_gen_dir"; "gen";
     "--output_header"; "map.h"].
  split; [right; right; now left|]. split; [reflexivity|].
  simpl. intros [H|[H|[H|[H|[H|[H|[]]]]]]]; discriminate H.
Defined.

(** X8. A run started without any of the three flags reports no usage
    error: when it passes the gate, all three arguments are element 0 of the
    command line, and both files are written to the one path joined from
    that element with itself. *)
Theorem no_flags_write_at_argv0 (w : World) (frontendStrings : FrontendStrings)
    (first : string) (others : list string) :
  argv (process w) = first :: others ->
  (forall flag, In flag theFlags -> ~ In flag (argv (process w))) ->
  parseLocalizableResourceMaps (checkLocalizedStrings w)
  = inr frontendStrings ->
  ~ report_nonempty (toAddReport w) ->
  ~ report_nonempty (toModifyReport w) ->
  parseArguments (argv (process w))
  = new_Arguments (VString first) (VString first) (VString first) /\
  writes (trace (main w))
  = [headerWrite w first first frontendStrings;
     ccWrite w first first first frontendStrings] /\
  fst (headerWrite w first first frontendStrings)
  = fst (ccWrite w first first first frontendStrings).
Proof.
  intros Hargv Hnone Hparse Ha Hm.
  destruct in_theFlags as (Hr & Hh & Hc).
  assert (Hargs : parseArguments (argv (process w))
                  = new_Arguments (VString first) (VString first)
                                  (VString first)).
  { unfold parseArguments. rewrite !field_without_flag by auto.
    now rewrite Hargv. }
  split; [assumption|]. split; [|reflexivity].
  rewrite (main_parsed w frontendStrings Hparse), (open_gate w Ha Hm).
  unfold after. cbn [trace fst].
  rewrite writes_app, reads_diagnostics_no_write.
  now apply guarded_generation_writes.
Qed.

(** A run of [node generate_devtools_ui_strings.js] without arguments. *)
Lemma no_flags_write_at_argv0_witness :
  writes (trace (main noFlagsWorld))
  = [headerWrite noFlagsWorld "node" "node" exampleStrings;
     ccWrite noFlagsWorld "node" "node" "node" exampleStrings].
Proof.
  apply (no_flags_write_at_argv0 noFlagsWorld exampleStrings "node"
           ["generate_devtools_ui_strings.js"] eq_refl).
  - intros flag [<-|[<-|[<-|[]]]] [H|[H|[]]]; discriminate H.
  - reflexivity.
  - exact undefined_report_empty.
  - exact undefined_report_empty.
Defined.

(** X10. When the run reaches the generation step with three string
    arguments and exactly one of the two writes is rejected, both writes
    were issued all the same, declaration first; the run then prints the
    headline and the stack of that rejection and exits with status 1. *)
Theorem one_rejected_write_trace (w : World)
    (frontendStrings : FrontendStrings) (root header cc : string) (e : Exn) :
  parseLocalizableResourceMaps (checkLocalizedStrings w)
  = inr frontendStrings ->
  ~ report_nonempty (toAddReport w) ->
  ~ report_nonempty (toModifyReport w) ->
  parseArguments (argv (process w))
  = new_Arguments (VString root) (VString header) (VString cc) ->
  (rejection (write_promise w (headerWrite w root header frontendStrings))
   = Some e /\
   rejection (write_promise w (ccWrite w root header cc frontendStrings))
   = None) \/
  (rejection (write_promise w (headerWrite w root header frontendStrings))
   = None /\
   rejection (write_promise w (ccWrite w root header cc frontendStrings))
   = Some e) ->
  main w
  = ((reads ++ diagnostics w ++
      [Call_generateDevToolsLocalizedStrings
         (new_Arguments (VString root) (VString header) (VString cc))
         frontendStrings;
       write_event (headerWrite w root header frontendStrings);
       write_event (ccWrite w root header cc frontendStrings);
       Console_log (LogString "Error generating id map files:");
       Console_log (LogStack e)])%list,
     Exited 1%Z).
Proof.
  intros Hparse Ha Hm Hargs Hone.
  rewrite (main_parsed w frontendStrings Hparse), (open_gate w Ha Hm).
  unfold after.
  destruct (guarded_generation_cases w frontendStrings)
    as [[Hundef _]|(root' & header' & cc' & Hargs' &
                    [(Hh & Hcc & _)|(e' & He & ->)])].
  - rewrite Hargs in Hundef. now apply not_undefined_strings in Hundef.
  - rewrite Hargs in Hargs'. injection Hargs' as <- <- <-.
    destruct Hone as [[H _]|[_ H]]; congruence.
  - rewrite Hargs in Hargs'. injection Hargs' as <- <- <-.
    assert (e' = e) as ->
      by (destruct Hone as [[H1 H2]|[H1 H2]], He; congruence).
    cbn [trace completion fst snd generationFailureLog].
    rewrite Hargs, <- app_assoc. reflexivity.
Qed.

(** The declaration write is rejected, the definition write fulfilled. *)
Lemma one_rejected_write_trace_witness :
  completion (main headerRejectedWorld) = Exited 1%Z /\
  writes (trace (main headerRejectedWorld))
  = [headerWrite headerRejectedWorld "gen" "devtools_ui_strings_map.h"
       exampleStrings;
     ccWrite headerRejectedWorld "gen" "devtools_ui_strings_map.h"
       "devtools_ui_strings_map.cc" exampleStrings].
Proof.
  rewrite (one_rejected_write_trace headerRejectedWorld exampleStrings
             "gen" "devtools_ui_strings_map.h" "devtools_ui_strings_map.cc"
             (HostError "EACCES") eq_refl
             undefined_report_empty undefined_report_empty eq_refl
             (or_introl (conj eq_refl eq_refl))).
  split; reflexivity.
Defined.

(* ================================================================== *)
(** * Further properties of generateDevToolsLocalizedStrings *)

(** X9. What the generation step writes into the two files depends on its
    arguments through the header path alone: another root directory or
    another path of the .cc file changes no content.  The declaration
    artifact depends on the map through its size alone. *)
Theorem contents_ignore_root_and_cc_path (w : World)
    (root root' header cc cc' : string)
    (frontendStrings : FrontendStrings) :
  contents_written
    (trace (generateDevToolsLocalizedStrings w
              (new_Arguments (VString root) (VString header) (VString cc))
              frontendStrings))
  = contents_written
      (trace (generateDevToolsLocalizedStrings w
                (new_Arguments (VString root') (VString header) (VString cc'))
                frontendStrings)) /\
  forall others : FrontendStrings,
    Map_size others = Map_size frontendStrings ->
    hd_error (contents_written
      (trace (generateDevToolsLocalizedStrings w
                (new_Arguments (VString root) (VString header) (VString cc))
                others)))
    = hd_error (contents_written
        (trace (generateDevToolsLocalizedStrings w
                  (new_Arguments (VString root) (VString header) (VString cc))
                  frontendStrings))).
Proof.
  unfold contents_written. rewrite !generate_writes. split.
  - unfold headerWrite, ccWrite. cbn [map snd].
    now rewrite !outputCCFileContent_entries.
  - intros others Hsize. rewrite generate_writes.
    unfold headerWrite. cbn [map snd hd_error].
    unfold outputHeaderFileContent. now rewrite Hsize.
Qed.

(** With the sanitizer of the world, which never throws, the loop is the
    accumulation of [mappingsStr]. *)
Lemma forEach_sanitizing_total (w : World) (frontendStrings : FrontendStrings) :
  forall acc,
    forEach_sanitizing (totalSanitizer w) frontendStrings acc
    = inr (Map_forEach frontendStrings
             (fun mappingsStr frontendString idsKey =>
                mappingsStr ++
                ("  {" ++ DQUOTE
                 ++ sanitizeStringIntoCppFormat (localizationUtils w)
                      (FrontendString.string frontendString)
                 ++ DQUOTE ++ ", " ++ idsKey ++ "}," ++ LF))
             acc).
Proof.
  induction frontendStrings as [|[idsKey frontendString] rest IH];
    intros acc; [reflexivity|].
  cbn [forEach_sanitizing totalSanitizer]. rewrite IH. reflexivity.
Qed.

(** With a sanitizer that never throws, the generation step is the one the
    other theorems are about. *)
Lemma generation_with_total_sanitizer (w : World) (args : Arguments)
    (frontendStrings : FrontendStrings) :
  generateDevToolsLocalizedStrings_throwing (totalSanitizer w) w args
    frontendStrings
  = generateDevToolsLocalizedStrings w args frontendStrings.
Proof.
  unfold generateDevToolsLocalizedStrings_throwing,
    generateDevToolsLocalizedStrings.
  rewrite forEach_sanitizing_total. reflexivity.
Qed.

(** The loop throws exactly when some item cannot be sanitized; the
    exception is that of the first such item. *)
Lemma forEach_sanitizing_throws (sanitize : string -> Exn + string)
    (frontendStrings : FrontendStrings) (e : Exn) :
  forall acc,
    forEach_sanitizing sanitize frontendStrings acc = inl e <->
    exists before item after,
      frontendStrings = (before ++ item :: after)%list /\
      (forall b, In b before ->
                 exists text,
                   sanitize (FrontendString.string (snd b)) = inr text) /\
      sanitize (FrontendString.string (snd item)) = inl e.
Proof.
  induction frontendStrings as [|[idsKey frontendString] rest IH]; intros acc.
  - split; [discriminate|].
    intros (before & item & after & H & _). now destruct before.
  - cbn [forEach_sanitizing].
    destruct (sanitize (FrontendString.string frontendString))
      as [e'|text] eqn:Hs.
    + split.
      * intros [= ->]. exists [], (idsKey, frontendString), rest.
        repeat split; [intros b []|exact Hs].
      * intros (before & item & after & H & Hbefore & Hitem).
        destruct before as [|b before]; cbn [app] in H.
        -- injection H as <- _. cbn [snd] in Hitem. congruence.
        -- injection H as <- _.
           destruct (Hbefore (idsKey, frontendString)) as (t & Ht);
             [now left|]. cbn [snd] in Ht. congruence.
    + rewrite IH. split.
      * intros (before & item & after & -> & Hbefore & Hitem).
        exists ((idsKey, frontendString) :: before), item, after.
        repeat split; [|exact Hitem].
        intros b [<-|Hb]; [now exists text|now apply Hbefore].
      * intros (before & item & after & H & Hbefore & Hitem).
        destruct before as [|b before]; cbn [app] in H.
        -- injection H as <- _. cbn [snd] in Hitem. congruence.
        -- injection H as _ ->. exists before, item, after.
           repeat split; [|exact Hitem].
           intros b' Hb'. apply Hbefore. now right.
Qed.

(** X11. The generation step itself never prints and never exits the
    process, and with a sanitizer that may throw it ends in one of three
    ways.  One of its arguments is not a string: it throws the [TypeError]
    of [path.join] before issuing any write.  The sanitizer throws on some
    item: the declaration write, issued before the loop, is the only write,
    and the step throws that exception.  Otherwise it issues exactly the two
    writes, declaration first, and completes normally only if both are
    fulfilled. *)
Theorem generation_step_behaviour (sanitize : string -> Exn + string)
    (w : World) (args : Arguments) (frontendStrings : FrontendStrings) :
  let run :=
    generateDevToolsLocalizedStrings_throwing sanitize w args
      frontendStrings in
  (forall x, ~ In (Console_log x) (trace run)) /\
  (forall code, completion run <> Exited code) /\
  ((some_argument_undefined args /\
    run = ([], Thrown TypeError_ERR_INVALID_ARG_TYPE)) \/
   (exists root header cc e,
       args = new_Arguments (VString root) (VString header) (VString cc) /\
       forEach_sanitizing sanitize frontendStrings "" = inl e /\
       run = ([write_event (headerWrite w root header frontendStrings)],
              Thrown e)) \/
   (exists root header cc mappingsStr,
       args = new_Arguments (VString root) (VString header) (VString cc) /\
       forEach_sanitizing sanitize frontendStrings "" = inr mappingsStr /\
       writes (trace run)
       = [headerWrite w root header frontendStrings;
          (join (path w) root cc, outputCCFileContentOf args mappingsStr)] /\
       (completion run = Normal tt ->
        Forall (fun pc => rejection (write_promise w pc) = None)
               (writes (trace run))))).
Proof.
  cbv zeta. unfold generateDevToolsLocalizedStrings_throwing.
  destruct (arguments_cases args) as [(root & header & cc & ->)|Hundef].
  - unfold path_join, writeFileAsync.
    cbn [rootGenDir outputHeaderFilePath outputCCFilePath bind ret emit app].
    destruct (forEach_sanitizing sanitize frontendStrings "")
      as [e|mappingsStr] eqn:Hloop.
    + cbn [throw trace completion fst snd app]. repeat split.
      * intros x Hin. no_such_event Hin.
      * discriminate.
      * right. left. exists root, header, cc, e. repeat split.
    + destruct (Promise_all_cases
        [writeFile (fs w) (join (path w) root header)
           (outputHeaderFileContent frontendStrings);
         writeFile (fs w) (join (path w) root cc)
           (outputCCFileContentOf
              (new_Arguments (VString root) (VString header) (VString cc))
              mappingsStr)])
        as [[Hall Hp]|(p & e & _ & _ & Hp)];
        cbn [app] in Hp |- *; rewrite Hp;
        cbn [trace completion fst snd app writes]; repeat split.
      * intros x Hin. no_such_event Hin.
      * discriminate.
      * right. right. exists root, header, cc, mappingsStr.
        repeat split. intros _.
        inversion Hall as [|? ? Hh Hrest]; subst.
        inversion Hrest as [|? ? Hc _]; subst.
        repeat constructor; assumption.
      * intros x Hin. no_such_event Hin.
      * discriminate.
      * right. right. exists root, header, cc, mappingsStr.
        repeat split. discriminate.
  - assert (Hrun : path_join w (rootGenDir args) (outputHeaderFilePath args)
                   = throw TypeError_ERR_INVALID_ARG_TYPE \/
                   exists h, path_join w (rootGenDir args)
                               (outputHeaderFilePath args) = ret h /\
                             path_join w (rootGenDir args)
                               (outputCCFilePath args)
                             = throw TypeError_ERR_INVALID_ARG_TYPE).
    { unfold some_argument_undefined in Hundef. unfold path_join.
      destruct args as [[|root] [|header] [|cc]];
        cbn [rootGenDir outputHeaderFilePath outputCCFilePath] in *;
        try (now left);
        try (right; eexists; split; reflexivity).
      destruct Hundef as [H|[H|H]]; discriminate H. }
    destruct Hrun as [->|(h & -> & ->)];
      cbn [bind throw ret trace completion fst snd app];
      (split; [intros x Hin; destruct Hin|]); (split; [discriminate|]);
      left; (split; [assumption|reflexivity]).
Qed.

(** A map whose second text holds the character of code 0, with the
    sanitizer that rejects it: the declaration write is the only write. *)
Example throwing_sanitizer_one_write :
  generateDevToolsLocalizedStrings_throwing rejectingNul staleWorld
    (parseArguments exampleArgv)
    [("IDS_DEVTOOLS_HELLO", FrontendString.Build "Hello");
     ("IDS_DEVTOOLS_NUL", FrontendString.Build (String "000" "x"))]
  = ([Fs_writeFile "gen/devtools_ui_strings_map.h"
        (declarationFile "2")],
     Thrown (HostError "EncodingError")).
Proof. reflexivity. Qed.

(** A numeral with a leading zero would be octal. *)
Example leading_zero_is_octal : cppIntegerLiteral "010" = Some 8.
Proof. reflexivity. Qed.

(** X12. For an empty map and three string arguments both files are still
    written: the declaration artifact declares size 0, and the definition
    artifact is the prologue directly followed by the epilogue, an array
    without entries. *)
Theorem empty_map_artifacts (w : World) (root header cc : string) :
  writes (trace (generateDevToolsLocalizedStrings w
            (new_Arguments (VString root) (VString header) (VString cc)) []))
  = [(join (path w) root header, declarationArtifact "0");
     (join (path w) root cc,
      definitionPrologue header ++ definitionEpilogue)].
Proof.
  rewrite generate_writes. unfold headerWrite, ccWrite.
  rewrite outputCCFileContent_entries. reflexivity.
Qed.

(** X13. When both writes are rejected, the run prints the stack of the
    rejection that settled first (the declaration's when they settle
    together) and exits with status 1. *)
Theorem both_rejected_first_settled_logged (w : World)
    (frontendStrings : FrontendStrings) (root header cc : string)
    (eh ec : Exn) :
  parseLocalizableResourceMaps (checkLocalizedStrings w)
  = inr frontendStrings ->
  ~ report_nonempty (toAddReport w) ->
  ~ report_nonempty (toModifyReport w) ->
  parseArguments (argv (process w))
  = new_Arguments (VString root) (VString header) (VString cc) ->
  rejection (write_promise w (headerWrite w root header frontendStrings))
  = Some eh ->
  rejection (write_promise w (ccWrite w root header cc frontendStrings))
  = Some ec ->
  completion (main w) = Exited 1%Z /\
  exists prefix,
    trace (main w)
    = (prefix ++
       [Console_log (LogString "Error generating id map files:");
        Console_log
          (LogStack
             (if (settledAt
                    (write_promise w
                       (ccWrite w root header cc frontendStrings))
                  <? settledAt
                       (write_promise w
                          (headerWrite w root header frontendStrings)))%nat
              then ec else eh))])%list.
Proof.
  intros Hparse Ha Hm Hargs Hh Hc.
  rewrite (main_parsed w frontendStrings Hparse), (open_gate w Ha Hm).
  unfold after, guarded_generation. rewrite Hargs, generate_with_strings.
  unfold Promise_all, after. cbn [first_rejection]. rewrite Hh, Hc.
  destruct (settledAt _ <? settledAt _)%nat;
    cbn [trace completion fst snd bind emit throw try_catch console_log
         process_exit app];
    (split; [reflexivity|]);
    exists ((reads ++ diagnostics w) ++
            [Call_generateDevToolsLocalizedStrings
               (new_Arguments (VString root) (VString header) (VString cc))
               frontendStrings;
             write_event (headerWrite w root header frontendStrings);
             write_event (ccWrite w root header cc frontendStrings)])%list;
    rewrite <- !app_assoc; reflexivity.
Qed.

(** Both writes rejected, the definition write first. *)
Lemma both_rejected_first_settled_logged_witness :
  completion (main bothRejectedWorld) = Exited 1%Z /\
  exists prefix,
    trace (main bothRejectedWorld)
    = (prefix ++
       [Console_log (LogString "Error generating id map files:");
        Console_log (LogStack (HostError "ENOSPC"))])%list.
Proof.
  apply (both_rejected_first_settled_logged bothRejectedWorld exampleStrings
           "gen" "devtools_ui_strings_map.h" "devtools_ui_strings_map.cc"
           (HostError "EACCES") (HostError "ENOSPC") eq_refl
           undefined_report_empty undefined_report_empty eq_refl
           eq_refl eq_refl).
Defined.

(** X14. The entries of a map made of two parts are the entries of the
    first part followed by those of the second: appending items to the map
    appends their lines and leaves the earlier lines as they were. *)
Theorem mappingsStr_app (w : World) (first second : FrontendStrings) :
  mappingsStr w (first ++ second)%list
  = mappingsStr w first ++ mappingsStr w second.
Proof.
  rewrite !mappingsStr_entries, map_app.
  induction (map (definitionEntry w) first) as [|entry entries IH];
    cbn [app concat_all fold_right]; [reflexivity|].
  unfold concat_all in IH. now rewrite IH, append_assoc.
Qed.
